(** * ElectronMail: the account-edit form component

    A shallow embedding of
    [src/web/browser-window/app/_options/account-edit.component.ts]:
    the form controls, the login-delay validator, the account stream, the
    subscription handler of [ngOnInit], [submit] and [remove].

    JavaScript values are a small tagged union, exceptions an error monad,
    the component instance and the store's received actions an explicit
    state threaded through the methods. *)

From Stdlib Require Import String Ascii List ZArith Lia Bool DecimalString.
Import ListNotations.
Local Open Scope string_scope.

(** ** JavaScript strings

    A string is a sequence of code units; the embedding covers the code
    units below 256.  [String.prototype.trim] strips white space and line
    terminators from both ends; below 256 those are TAB, LF, VT, FF, CR,
    SPACE and NBSP. *)

Definition is_white_space (c : ascii) : bool :=
  match nat_of_ascii c with
  | 9 | 10 | 11 | 12 | 13 | 32 | 160 => true
  | _ => false
  end.

Fixpoint trimStart (s : string) : string :=
  match s with
  | EmptyString => EmptyString
  | String c s' => if is_white_space c then trimStart s' else s
  end.

Fixpoint trimEnd (s : string) : string :=
  match s with
  | EmptyString => EmptyString
  | String c s' =>
      match trimEnd s' with
      | EmptyString => if is_white_space c then EmptyString else String c EmptyString
      | t => String c t
      end
  end.

Definition trim (s : string) : string := trimEnd (trimStart s).

Fixpoint all_white_space (s : string) : bool :=
  match s with
  | EmptyString => true
  | String c s' => is_white_space c && all_white_space s'
  end.

Definition first_char (s : string) : option ascii :=
  match s with
  | EmptyString => None
  | String c _ => Some c
  end.

Fixpoint last_char (s : string) : option ascii :=
  match s with
  | EmptyString => None
  | String c EmptyString => Some c
  | String _ s' => last_char s'
  end.

Definition dquote : string := String (ascii_of_nat 34) EmptyString.

(** ** JavaScript values, truthiness and exceptions *)

(** What a control of this form, a route parameter or an optional account
    field holds: [null], [undefined], a boolean or a string. *)
Inductive JsValue : Type :=
  | JUndefined
  | JNull
  | JBool (b : bool)
  | JStr (s : string).

Definition truthy (v : JsValue) : bool :=
  match v with
  | JUndefined | JNull => false
  | JBool b => b
  | JStr EmptyString => false
  | JStr _ => true
  end.

(** [Boolean(v)] *)
Definition Boolean (v : JsValue) : bool := truthy v.

(** [a || b] *)
Definition js_or (a b : JsValue) : JsValue := if truthy a then a else b.

(** [String(v)] *)
Definition js_String (v : JsValue) : string :=
  match v with
  | JUndefined => "undefined"
  | JNull => "null"
  | JBool true => "true"
  | JBool false => "false"
  | JStr s => s
  end.

(** Number to string, for the integers a range holds. *)
Definition number_to_string (z : Z) : string :=
  NilZero.string_of_int (Z.to_int z).

Inductive JsError : Type :=
  | Error (message : string)
  | TypeError (message : string).

Inductive Completion (A : Type) : Type :=
  | Normal (a : A)
  | Throw (e : JsError).
Arguments Normal {A} a.
Arguments Throw {A} e.

Definition cbind {A B : Type} (m : Completion A) (k : A -> Completion B) : Completion B :=
  match m with
  | Normal a => k a
  | Throw e => Throw e
  end.

Declare Scope completion_scope.
Delimit Scope completion_scope with completion.
Notation "x <- m ;; k" := (cbind m (fun x => k))
  (at level 61, m at next level, right associativity) : completion_scope.

(** [v && v.trim()]: a falsy [v] is the result; a truthy string is trimmed;
    any other truthy value has no [trim] method. *)
Definition and_trim (v : JsValue) : Completion JsValue :=
  if truthy v then
    match v with
    | JStr s => Normal (JStr (trim s))
    | _ => Throw (TypeError "value.trim is not a function")
    end
  else Normal v.

(** ** Data model *)

(** [AccountConfig] of [src/shared/model/account]: the fields the component
    reads.  Optional fields hold [undefined] when absent. *)
Module AccountConfig.

Record Proxy : Type := {
  proxyRules : JsValue;
  proxyBypassRules : JsValue;
}.

Record Credentials : Type := {
  password : JsValue;
  twoFactorCode : JsValue;
  mailPassword : JsValue;
}.

(** [{start: number, end: number}] *)
Record Range : Type := {
  start : Z;
  end_ : Z;
}.

Record t : Type := {
  login : string;
  title : JsValue;
  entryUrl : JsValue;
  database : JsValue;
  persistentSession : JsValue;
  rotateUserAgent : JsValue;
  credentials : Credentials;
  proxy : option Proxy;
  loginDelayUntilSelected : JsValue;
  loginDelaySecondsRange : option Range;
}.

End AccountConfig.

(** [AccountConfigCreateUpdatePatch], as [submit] builds it.  [proxy] is
    [None] when the key is absent, [loginDelaySecondsRange] is [None] when
    the key holds [undefined]. *)
Module Patch.

Record t : Type := {
  login : JsValue;
  title : JsValue;
  entryUrl : JsValue;
  database : bool;
  persistentSession : bool;
  rotateUserAgent : bool;
  credentials : AccountConfig.Credentials;
  proxy : option AccountConfig.Proxy;
  loginDelayUntilSelected : bool;
  loginDelaySecondsRange : option AccountConfig.Range;
}.

End Patch.

(** The [controls] object: each control is represented by its current
    value.  [form = new FormGroup(this.controls)] keeps a reference to this
    very object and [form.removeControl(name)] deletes the key [name] from
    it, so the [login] entry is optional: [None] once it has been removed. *)
Module Controls.

Record t : Type := {
  login : option JsValue;
  title : JsValue;
  database : JsValue;
  persistentSession : JsValue;
  rotateUserAgent : JsValue;
  entryUrl : JsValue;
  proxyRules : JsValue;
  proxyBypassRules : JsValue;
  password : JsValue;
  twoFactorCode : JsValue;
  mailPassword : JsValue;
  loginDelayUntilSelected : JsValue;
  loginDelaySecondsRange : JsValue;
}.

(** Every control is created with the value [null]. *)
Definition initial : t := {|
  login := Some JNull;
  title := JNull;
  database := JNull;
  persistentSession := JNull;
  rotateUserAgent := JNull;
  entryUrl := JNull;
  proxyRules := JNull;
  proxyBypassRules := JNull;
  password := JNull;
  twoFactorCode := JNull;
  mailPassword := JNull;
  loginDelayUntilSelected := JNull;
  loginDelaySecondsRange := JNull;
|}.

(** [form.removeControl("login")] *)
Definition removeControl_login (c : t) : t := {|
  login := None;
  title := title c;
  database := database c;
  persistentSession := persistentSession c;
  rotateUserAgent := rotateUserAgent c;
  entryUrl := entryUrl c;
  proxyRules := proxyRules c;
  proxyBypassRules := proxyBypassRules c;
  password := password c;
  twoFactorCode := twoFactorCode c;
  mailPassword := mailPassword c;
  loginDelayUntilSelected := loginDelayUntilSelected c;
  loginDelaySecondsRange := loginDelaySecondsRange c;
|}.

(** Whether the form group still has a [login] control. *)
Definition form_contains_login (c : t) : bool :=
  match login c with
  | Some _ => true
  | None => false
  end.

End Controls.

(** [OPTIONS_ACTIONS]: the three action variants the component dispatches. *)
Inductive Action : Type :=
  | AddAccountRequest (patch : Patch.t)
  | UpdateAccountRequest (patch : Patch.t)
  | RemoveAccountRequest (account : AccountConfig.t).

(** The component instance: [this.controls] (shared with [this.form]) and
    [this.account]. *)
Record Component : Type := {
  controls : Controls.t;
  account : option AccountConfig.t;
}.

(** The state a method runs in: the component and the actions the store has
    received, oldest first. *)
Record State : Type := {
  this : Component;
  dispatched : list Action;
}.

(** A method: it completes normally or throws, and leaves a state. *)
Definition Method (A : Type) : Type := State -> Completion A * State.

Definition lift {A : Type} (m : Completion A) : Method A :=
  fun st => (m, st).

Definition mbind {A B : Type} (m : Method A) (k : A -> Method B) : Method B :=
  fun st =>
    match m st with
    | (Normal a, st') => k a st'
    | (Throw e, st') => (Throw e, st')
    end.

(** [this.store.dispatch(action)] *)
Definition dispatch (a : Action) : Method unit :=
  fun st => (Normal tt, {| this := this st; dispatched := dispatched st ++ [a] |}).

Declare Scope method_scope.
Delimit Scope method_scope with method.
Notation "x <- m ;; k" := (mbind m (fun x => k))
  (at level 61, m at next level, right associativity) : method_scope.

(** The component as constructed. *)
Definition new_component : Component := {|
  controls := Controls.initial;
  account := None;
|}.

(** What [validateLoginDelaySecondsRange] returns:
    [{validationError: string}] or a range. *)
Inductive ValidationResult : Type :=
  | ValidationError (validationError : string)
  | ValidRange (range : AccountConfig.Range).

Definition ret {A : Type} (a : A) : Method A := lift (Normal a).

Definition throw {A : Type} (e : JsError) : Method A := lift (Throw e).

(** Reading [this]. *)
Definition get_this : Method Component :=
  fun st => (Normal (this st), st).

(** Assigning the fields of [this]. *)
Definition set_this (c : Component) : Method unit :=
  fun st => (Normal tt, {| this := c; dispatched := dispatched st |}).

(** The external [validateLoginDelaySecondsRange] of [src/shared/util]: it
    receives the value of the control and returns a validation result, or
    throws. *)
Definition Validator : Type := JsValue -> Completion ValidationResult.

(** ** The validator of the [loginDelaySecondsRange] control *)

(** [{errorMsg: string}] *)
Record ValidationErrors : Type := {
  errorMsg : string;
}.

(** The callback given to [new FormControl(null, ...)]; [this_controls] is
    [this.controls], still [undefined] while the object literal is being
    evaluated.  The result [None] is [null]. *)
Definition loginDelaySecondsRange_validator
    (validateLoginDelaySecondsRange : Validator)
    (this_controls : option Controls.t) : Completion (option ValidationErrors) :=
  let value :=
    match this_controls with
    | Some c => Controls.loginDelaySecondsRange c
    | None => JUndefined
    end in
  if truthy value then
    (validated <- validateLoginDelaySecondsRange value ;;
     match validated with
     | ValidationError msg => Normal (Some {| errorMsg := msg |})
     | ValidRange _ => Normal None
     end)%completion
  else Normal None.

(** ** The account stream *)

(** [concatMap] subscribes to one inner observable at a time; the store's
    selection never completes, so the first login stays [active] and later
    ones are buffered. *)
Record AccountStream : Type := {
  active : option string;
  buffered : list string;
}.

Definition account_stream_initial : AccountStream := {|
  active := None;
  buffered := [];
|}.

(** One emission of [merge(params, queryParams)] through the pipe of
    [account$]: [login] is the [login] entry of the emitted object, [store]
    the current store state, [pickAccount] the selector
    [OptionsSelectors.SETTINGS.pickAccount].  Returns the accounts the stream
    emits in response. *)
Definition account_stream_on_params {StoreState : Type}
    (pickAccount : StoreState -> string -> option AccountConfig.t)
    (store : StoreState) (login : JsValue) (s : AccountStream)
  : AccountStream * list AccountConfig.t :=
  (* mergeMap(({login}) => login ? [String(login)] : []) *)
  let logins := if truthy login then [js_String login] else [] in
  match logins with
  | [] => (s, [])
  | l :: _ =>
      (* concatMap((login) => this.store.select(pickAccount({login}))) *)
      match active s with
      | Some _ => ({| active := active s; buffered := buffered s ++ [l] |}, [])
      | None =>
          ({| active := Some l; buffered := buffered s |},
           (* mergeMap((account) => account ? [account] : []) *)
           match pickAccount store l with
           | Some account => [account]
           | None => []
           end)
      end
  end.

(** ** [ngOnInit]: the subscriber of [account$] *)

(** The template string of the range. *)
Definition range_to_string (r : AccountConfig.Range) : string :=
  number_to_string (AccountConfig.start r) ++ "-" ++ number_to_string (AccountConfig.end_ r).

(** The [patchValue] calls, in the order of the source. *)
Definition patch_controls (account : AccountConfig.t) (c : Controls.t) : Controls.t := {|
  Controls.login := Controls.login c;
  Controls.title := AccountConfig.title account;
  Controls.database := AccountConfig.database account;
  Controls.persistentSession := AccountConfig.persistentSession account;
  Controls.rotateUserAgent := AccountConfig.rotateUserAgent account;
  Controls.entryUrl := AccountConfig.entryUrl account;
  Controls.proxyRules :=
    match AccountConfig.proxy account with
    | Some p => AccountConfig.proxyRules p
    | None => JNull
    end;
  Controls.proxyBypassRules :=
    match AccountConfig.proxy account with
    | Some p => AccountConfig.proxyBypassRules p
    | None => JNull
    end;
  Controls.password := AccountConfig.password (AccountConfig.credentials account);
  Controls.twoFactorCode := AccountConfig.twoFactorCode (AccountConfig.credentials account);
  Controls.mailPassword := AccountConfig.mailPassword (AccountConfig.credentials account);
  Controls.loginDelayUntilSelected := AccountConfig.loginDelayUntilSelected account;
  Controls.loginDelaySecondsRange :=
    match AccountConfig.loginDelaySecondsRange account with
    | Some r => JStr (range_to_string r)
    | None => JUndefined
    end;
|}.

(** [(account) => { this.account = account; this.form.removeControl("login"); ... }] *)
Definition account_subscriber (account : AccountConfig.t) : Method unit :=
  (self <- get_this ;;
   set_this {|
     controls := patch_controls account (Controls.removeControl_login (controls self));
     account := Some account;
   |})%method.

(** The subscriber run on each account of an emission, in order. *)
Fixpoint deliver (accounts : list AccountConfig.t) (st : State) : State :=
  match accounts with
  | [] => st
  | a :: rest => deliver rest (snd (account_subscriber a st))
  end.

(** A parameter emission as the subscribed component sees it. *)
Definition on_params_emission {StoreState : Type}
    (pickAccount : StoreState -> string -> option AccountConfig.t)
    (store : StoreState) (login : JsValue) (sst : AccountStream * State)
  : AccountStream * State :=
  let (s', accounts) := account_stream_on_params pickAccount store login (fst sst) in
  (s', deliver accounts (snd sst)).

(** ** [submit] *)

(** An empty control value: [null], [undefined] or the empty string. *)
Definition js_empty (v : JsValue) : bool :=
  match v with
  | JNull | JUndefined | JStr EmptyString => true
  | _ => false
  end.

(** Empty, or a string of white space only. *)
Definition blank (v : JsValue) : bool :=
  match v with
  | JNull | JUndefined => true
  | JStr s => all_white_space s
  | JBool _ => false
  end.

(** A string that is not empty once trimmed. *)
Definition non_blank (v : JsValue) : bool :=
  match v with
  | JStr s => negb (all_white_space s)
  | _ => false
  end.

(** A string trimmed, any other value as it is. *)
Definition trimmed (v : JsValue) : JsValue :=
  match v with
  | JStr s => JStr (trim s)
  | _ => v
  end.

(** The [proxy] object of [submit]. *)
Definition submit_proxy (c : Controls.t) : Completion AccountConfig.Proxy :=
  (proxyRules <- and_trim (Controls.proxyRules c) ;;
   proxyBypassRules <- and_trim (Controls.proxyBypassRules c) ;;
   Normal {| AccountConfig.proxyRules := proxyRules;
             AccountConfig.proxyBypassRules := proxyBypassRules |})%completion.

(** [...((proxy.proxyRules || proxy.proxyBypassRules) && {proxy})]: the
    [proxy] key the spread contributes, if any. *)
Definition spread_proxy (proxy : AccountConfig.Proxy) : option AccountConfig.Proxy :=
  if truthy (js_or (AccountConfig.proxyRules proxy) (AccountConfig.proxyBypassRules proxy))
  then Some proxy
  else None.

(** [account ? account.login : controls.login.value] *)
Definition submit_login (self : Component) : Completion JsValue :=
  match account self with
  | Some a => Normal (JStr (AccountConfig.login a))
  | None =>
      match Controls.login (controls self) with
      | Some value => Normal value
      | None => Throw (TypeError "Cannot read property 'value' of undefined")
      end
  end.

(** The immediately invoked function that computes
    [loginDelaySecondsRange]; [None] is [undefined]. *)
Definition submit_loginDelaySecondsRange
    (validateLoginDelaySecondsRange : Validator)
    (c : Controls.t) : Completion (option AccountConfig.Range) :=
  (validated <-
     (if truthy (Controls.loginDelaySecondsRange c)
      then (r <- validateLoginDelaySecondsRange (Controls.loginDelaySecondsRange c) ;;
            Normal (Some r))
      else Normal None) ;;
   match validated with
   | Some (ValidationError msg) => Throw (Error msg)
   | Some (ValidRange range) => Normal (Some range)
   | None => Normal None
   end)%completion.

(** The [patch] object literal, evaluated in source order. *)
Definition submit_patch
    (validateLoginDelaySecondsRange : Validator)
    (self : Component) : Completion Patch.t :=
  let c := controls self in
  (proxy <- submit_proxy c ;;
   login <- submit_login self ;;
   loginDelaySecondsRange <- submit_loginDelaySecondsRange validateLoginDelaySecondsRange c ;;
   Normal {|
     Patch.login := login;
     Patch.title := Controls.title c;
     Patch.entryUrl := Controls.entryUrl c;
     Patch.database := Boolean (Controls.database c);
     Patch.persistentSession := Boolean (Controls.persistentSession c);
     Patch.rotateUserAgent := Boolean (Controls.rotateUserAgent c);
     Patch.credentials := {|
       AccountConfig.password := Controls.password c;
       AccountConfig.twoFactorCode := Controls.twoFactorCode c;
       AccountConfig.mailPassword := Controls.mailPassword c;
     |};
     Patch.proxy := spread_proxy proxy;
     Patch.loginDelayUntilSelected := Boolean (Controls.loginDelayUntilSelected c);
     Patch.loginDelaySecondsRange := loginDelaySecondsRange;
   |})%completion.

(** [account ? UpdateAccountRequest(patch) : AddAccountRequest(patch)] *)
Definition submit_action (self : Component) (patch : Patch.t) : Action :=
  match account self with
  | Some _ => UpdateAccountRequest patch
  | None => AddAccountRequest patch
  end.

Definition submit (validateLoginDelaySecondsRange : Validator) : Method unit :=
  (self <- get_this ;;
   patch <- lift (submit_patch validateLoginDelaySecondsRange self) ;;
   dispatch (submit_action self patch))%method.

(** The variant of a dispatched action. *)
Definition is_add (a : Action) : bool :=
  match a with
  | AddAccountRequest _ => true
  | _ => false
  end.

Definition is_update (a : Action) : bool :=
  match a with
  | UpdateAccountRequest _ => true
  | _ => false
  end.

Definition is_remove (a : Action) : bool :=
  match a with
  | RemoveAccountRequest _ => true
  | _ => false
  end.

(** The patch an add or update action carries. *)
Definition action_patch (a : Action) : option Patch.t :=
  match a with
  | AddAccountRequest p | UpdateAccountRequest p => Some p
  | RemoveAccountRequest _ => None
  end.

(** ** [remove] *)

Definition remove_error : JsError :=
  Error ("No " ++ dquote ++ "Account" ++ dquote ++ " to remove").

Definition remove_prompt (a : AccountConfig.t) : string :=
  "Please confirm " ++ dquote ++ AccountConfig.login a ++ dquote ++ " account removing!".

(** [confirm] is the blocking dialog: the answer the user gives to the
    prompt. *)
Definition remove (confirm : string -> bool) : Method unit :=
  (self <- get_this ;;
   match account self with
   | None => throw remove_error
   | Some a =>
       if negb (confirm (remove_prompt a))
       then ret tt
       else dispatch (RemoveAccountRequest a)
   end)%method.

(** ** A validator to run the model with *)

Fixpoint split_dash (s : string) : option (string * string) :=
  match s with
  | EmptyString => None
  | String c s' =>
      if Ascii.eqb c "-" then Some (EmptyString, s')
      else match split_dash s' with
           | Some (l, r) => Some (String c l, r)
           | None => None
           end
  end.

Definition parse_number (s : string) : option Z :=
  match NilZero.uint_of_string s with
  | Some d => Some (Z.of_uint d)
  | None => None
  end.

(** Modelled from the spec: [validateLoginDelaySecondsRange] of
    [src/shared/util] is not among the sources.  The spec describes it as
    enforcing that a range string of the format start-end is well formed and
    that start is at most end; anything that is not a string has no pattern
    to match and throws. *)
Definition validateLoginDelaySecondsRange_model : Validator :=
  fun v =>
    match v with
    | JStr s =>
        match split_dash s with
        | Some (l, r) =>
            match parse_number l, parse_number r with
            | Some a, Some b =>
                if (a <=? b)%Z
                then Normal (ValidRange {| AccountConfig.start := a; AccountConfig.end_ := b |})
                else Normal (ValidationError "Start value is bigger than end value.")
            | _, _ => Normal (ValidationError "Invalid data format.")
            end
        | None => Normal (ValidationError "Invalid data format.")
        end
    | _ => Throw (TypeError "value.match is not a function")
    end.

(** ** Sample data *)

Definition sample_account : AccountConfig.t := {|
  AccountConfig.login := "user@example.org";
  AccountConfig.title := JStr "Work";
  AccountConfig.entryUrl := JStr "https://mail.example.org";
  AccountConfig.database := JBool true;
  AccountConfig.persistentSession := JUndefined;
  AccountConfig.rotateUserAgent := JBool false;
  AccountConfig.credentials := {|
    AccountConfig.password := JStr "secret";
    AccountConfig.twoFactorCode := JUndefined;
    AccountConfig.mailPassword := JUndefined;
  |};
  AccountConfig.proxy := None;
  AccountConfig.loginDelayUntilSelected := JBool true;
  AccountConfig.loginDelaySecondsRange :=
    Some {| AccountConfig.start := 5; AccountConfig.end_ := 10 |};
|}.

Definition initial_state : State := {|
  this := new_component;
  dispatched := [];
|}.

(** The state once [sample_account] has been loaded. *)
Definition loaded_state : State := snd (account_subscriber sample_account initial_state).

Definition with_controls (c : Controls.t) (st : State) : State := {|
  this := {| controls := c; account := account (this st) |};
  dispatched := dispatched st;
|}.

Definition set_loginDelaySecondsRange (v : JsValue) (c : Controls.t) : Controls.t := {|
  Controls.login := Controls.login c;
  Controls.title := Controls.title c;
  Controls.database := Controls.database c;
  Controls.persistentSession := Controls.persistentSession c;
  Controls.rotateUserAgent := Controls.rotateUserAgent c;
  Controls.entryUrl := Controls.entryUrl c;
  Controls.proxyRules := Controls.proxyRules c;
  Controls.proxyBypassRules := Controls.proxyBypassRules c;
  Controls.password := Controls.password c;
  Controls.twoFactorCode := Controls.twoFactorCode c;
  Controls.mailPassword := Controls.mailPassword c;
  Controls.loginDelayUntilSelected := Controls.loginDelayUntilSelected c;
  Controls.loginDelaySecondsRange := v;
|}.

Definition set_proxy (rules bypass : JsValue) (c : Controls.t) : Controls.t := {|
  Controls.login := Controls.login c;
  Controls.title := Controls.title c;
  Controls.database := Controls.database c;
  Controls.persistentSession := Controls.persistentSession c;
  Controls.rotateUserAgent := Controls.rotateUserAgent c;
  Controls.entryUrl := Controls.entryUrl c;
  Controls.proxyRules := rules;
  Controls.proxyBypassRules := bypass;
  Controls.password := Controls.password c;
  Controls.twoFactorCode := Controls.twoFactorCode c;
  Controls.mailPassword := Controls.mailPassword c;
  Controls.loginDelayUntilSelected := Controls.loginDelayUntilSelected c;
  Controls.loginDelaySecondsRange := Controls.loginDelaySecondsRange c;
|}.

Definition set_login (v : option JsValue) (c : Controls.t) : Controls.t := {|
  Controls.login := v;
  Controls.title := Controls.title c;
  Controls.database := Controls.database c;
  Controls.persistentSession := Controls.persistentSession c;
  Controls.rotateUserAgent := Controls.rotateUserAgent c;
  Controls.entryUrl := Controls.entryUrl c;
  Controls.proxyRules := Controls.proxyRules c;
  Controls.proxyBypassRules := Controls.proxyBypassRules c;
  Controls.password := Controls.password c;
  Controls.twoFactorCode := Controls.twoFactorCode c;
  Controls.mailPassword := Controls.mailPassword c;
  Controls.loginDelayUntilSelected := Controls.loginDelayUntilSelected c;
  Controls.loginDelaySecondsRange := Controls.loginDelaySecondsRange c;
|}.

(** Modelled from the spec: the selector [OptionsSelectors.SETTINGS.pickAccount]
    is not among the sources.  The spec describes it as looking up the
    account matching the login in store state; the store state is taken to
    be the list of configured accounts. *)
Definition pickAccount_model (accounts : list AccountConfig.t) (login : string)
  : option AccountConfig.t :=
  find (fun a => String.eqb (AccountConfig.login a) login) accounts.

(** A fresh component whose range control holds a reversed range. *)
Definition reversed_range_state : State :=
  with_controls (set_loginDelaySecondsRange (JStr "10-5") Controls.initial) initial_state.

(** A fresh component whose proxy rules hold one space. *)
Definition space_proxy_state : State :=
  with_controls (set_proxy (JStr " ") JNull Controls.initial) initial_state.

(** The loaded component with padded proxy rules typed in. *)
Definition padded_proxy_state : State :=
  with_controls
    (set_proxy (JStr "  socks5://127.0.0.1:9050 ") (JStr "")
       (controls (this loaded_state)))
    loaded_state.

(** ** The component over time *)

(** The names of the controls. *)
Module ControlName.

Inductive t : Type :=
  | login
  | title
  | database
  | persistentSession
  | rotateUserAgent
  | entryUrl
  | proxyRules
  | proxyBypassRules
  | password
  | twoFactorCode
  | mailPassword
  | loginDelayUntilSelected
  | loginDelaySecondsRange.

End ControlName.

(** The controls with the value of one of them replaced. *)
Definition with_value (name : ControlName.t) (value : JsValue) (c : Controls.t)
  : Controls.t := {|
  Controls.login :=
    match name with
    | ControlName.login => Some value
    | _ => Controls.login c
    end;
  Controls.title :=
    match name with
    | ControlName.title => value
    | _ => Controls.title c
    end;
  Controls.database :=
    match name with
    | ControlName.database => value
    | _ => Controls.database c
    end;
  Controls.persistentSession :=
    match name with
    | ControlName.persistentSession => value
    | _ => Controls.persistentSession c
    end;
  Controls.rotateUserAgent :=
    match name with
    | ControlName.rotateUserAgent => value
    | _ => Controls.rotateUserAgent c
    end;
  Controls.entryUrl :=
    match name with
    | ControlName.entryUrl => value
    | _ => Controls.entryUrl c
    end;
  Controls.proxyRules :=
    match name with
    | ControlName.proxyRules => value
    | _ => Controls.proxyRules c
    end;
  Controls.proxyBypassRules :=
    match name with
    | ControlName.proxyBypassRules => value
    | _ => Controls.proxyBypassRules c
    end;
  Controls.password :=
    match name with
    | ControlName.password => value
    | _ => Controls.password c
    end;
  Controls.twoFactorCode :=
    match name with
    | ControlName.twoFactorCode => value
    | _ => Controls.twoFactorCode c
    end;
  Controls.mailPassword :=
    match name with
    | ControlName.mailPassword => value
    | _ => Controls.mailPassword c
    end;
  Controls.loginDelayUntilSelected :=
    match name with
    | ControlName.loginDelayUntilSelected => value
    | _ => Controls.loginDelayUntilSelected c
    end;
  Controls.loginDelaySecondsRange :=
    match name with
    | ControlName.loginDelaySecondsRange => value
    | _ => Controls.loginDelaySecondsRange c
    end;
|}.

(** [controls[name].setValue(value)], as an input bound to the control does
    on a change.  The [login] control can be given a value only while the
    [controls] object still has it. *)
Definition setValue (name : ControlName.t) (value : JsValue) (c : Controls.t)
  : Controls.t :=
  match name, Controls.login c with
  | ControlName.login, None => c
  | _, _ => with_value name value c
  end.

(** What happens to a component: the account stream emits, [submit] or
    [remove] is called (the latter with the user's answer to the prompt), or
    an input changes the value of a control. *)
Inductive Event : Type :=
  | AccountEmitted (account : AccountConfig.t)
  | SubmitCalled
  | RemoveCalled (confirmed : bool)
  | ValueSet (name : ControlName.t) (value : JsValue).

(** The state after one event; a throw of [submit] or [remove] ends that call
    and leaves the state it reached. *)
Definition step (validateLoginDelaySecondsRange : Validator) (e : Event) (st : State)
  : State :=
  match e with
  | AccountEmitted a => snd (account_subscriber a st)
  | SubmitCalled => snd (submit validateLoginDelaySecondsRange st)
  | RemoveCalled confirmed => snd (remove (fun _ => confirmed) st)
  | ValueSet name value => with_controls (setValue name value (controls (this st))) st
  end.

Fixpoint run (validateLoginDelaySecondsRange : Validator) (events : list Event)
    (st : State) : State :=
  match events with
  | [] => st
  | e :: rest =>
      run validateLoginDelaySecondsRange rest (step validateLoginDelaySecondsRange e st)
  end.

(** The accounts the stream has emitted among the events. *)
Fixpoint emitted_accounts (events : list Event) : list AccountConfig.t :=
  match events with
  | [] => []
  | AccountEmitted a :: rest => a :: emitted_accounts rest
  | _ :: rest => emitted_accounts rest
  end.

(** The number of calls of [submit] and [remove] among the events. *)
Fixpoint method_calls (events : list Event) : nat :=
  match events with
  | [] => 0
  | SubmitCalled :: rest | RemoveCalled _ :: rest => S (method_calls rest)
  | _ :: rest => method_calls rest
  end.

(** Where a dispatched action takes its account from: a remove action
    carries one of the given accounts, an update patch the login of one. *)
Definition action_from (accounts : list AccountConfig.t) (act : Action) : Prop :=
  match act with
  | AddAccountRequest _ => True
  | UpdateAccountRequest patch =>
      exists a, In a accounts /\ Patch.login patch = JStr (AccountConfig.login a)
  | RemoveAccountRequest a => In a accounts
  end.

(** ** The account stream over several emissions *)


(** ** The progress flags *)

(** The [progress] slice of the store state, as far as the component reads
    it. *)
Module Progress.

Record t : Type := {
  addingAccount : JsValue;
  updatingAccount : JsValue;
  removingAccount : JsValue;
}.

End Progress.

(** [distinctUntilChanged()] on booleans: [previous] is the last value let
    through. *)
Fixpoint distinctUntilChanged_after (previous : bool) (values : list bool) : list bool :=
  match values with
  | [] => []
  | v :: rest =>
      if Bool.eqb previous v
      then distinctUntilChanged_after previous rest
      else v :: distinctUntilChanged_after v rest
  end.

Definition distinctUntilChanged (values : list bool) : list bool :=
  match values with
  | [] => []
  | v :: rest => v :: distinctUntilChanged_after v rest
  end.

(** [Boolean(progress.addingAccount || progress.updatingAccount)] *)
Definition processing_flag (progress : Progress.t) : bool :=
  Boolean (js_or (Progress.addingAccount progress) (Progress.updatingAccount progress)).

(** [Boolean(progress.removingAccount)] *)
Definition removing_flag (progress : Progress.t) : bool :=
  Boolean (Progress.removingAccount progress).

(** [processing$], from the progress values the selection emits. *)
Definition processing_stream (progress : list Progress.t) : list bool :=
  distinctUntilChanged (map processing_flag progress).

(** [removing$] *)
Definition removing_stream (progress : list Progress.t) : list bool :=
  distinctUntilChanged (map removing_flag progress).

(** Each value after the first is the negation of the one before it. *)
Fixpoint alternating (values : list bool) : Prop :=
  match values with
  | [] => True
  | v :: rest =>
      match rest with
      | [] => True
      | w :: _ => w = negb v /\ alternating rest
      end
  end.

(** ** Subscriptions *)

(** What [ngOnInit] registers. *)
Inductive Teardown : Type :=
  | DocumentClickListener
  | AccountSubscription.

Definition Teardown_eqb (a b : Teardown) : bool :=
  match a, b with
  | DocumentClickListener, DocumentClickListener => true
  | AccountSubscription, AccountSubscription => true
  | _, _ => false
  end.

(** A [Subscription]: the teardowns added to it, until it is closed. *)
Record Subscription : Type := {
  closed : bool;
  teardowns : list Teardown;
}.

(** [this.subscription] and the registrations that are in force. *)
Record Lifecycle : Type := {
  subscription : Subscription;
  registered : list Teardown;
}.

Definition new_lifecycle : Lifecycle := {|
  subscription := {| closed := false; teardowns := [] |};
  registered := [];
|}.

(** One registration of [t] released. *)
Fixpoint release (t : Teardown) (registered : list Teardown) : list Teardown :=
  match registered with
  | [] => []
  | r :: rest => if Teardown_eqb t r then rest else r :: release t rest
  end.

(** The registration [t] is made and handed to [this.subscription.add]: a
    closed subscription runs the teardown at once, an open one keeps it. *)
Definition register_and_add (t : Teardown) (l : Lifecycle) : Lifecycle :=
  let registered' := (registered l ++ [t])%list in
  if closed (subscription l)
  then {| subscription := subscription l; registered := release t registered' |}
  else {| subscription := {| closed := false;
                             teardowns := (teardowns (subscription l) ++ [t])%list |};
          registered := registered' |}.

Definition ngOnInit_subscriptions (l : Lifecycle) : Lifecycle :=
  register_and_add AccountSubscription (register_and_add DocumentClickListener l).

(** [this.subscription.unsubscribe()]: every teardown kept is run, once. *)
Definition ngOnDestroy (l : Lifecycle) : Lifecycle :=
  if closed (subscription l)
  then l
  else {| subscription := {| closed := true; teardowns := [] |};
          registered := fold_left (fun r t => release t r)
                                  (teardowns (subscription l)) (registered l) |}.

Inductive LifecycleCall : Type :=
  | NgOnInit
  | NgOnDestroy.

Fixpoint lifecycle_run (calls : list LifecycleCall) (l : Lifecycle) : Lifecycle :=
  match calls with
  | [] => l
  | NgOnInit :: rest => lifecycle_run rest (ngOnInit_subscriptions l)
  | NgOnDestroy :: rest => lifecycle_run rest (ngOnDestroy l)
  end.

(** What holds of [this.subscription] at any time: an open subscription
    keeps exactly the registrations in force, a closed one has none. *)
Definition lifecycle_ok (l : Lifecycle) : Prop :=
  if closed (subscription l)
  then registered l = [] /\ teardowns (subscription l) = []
  else registered l = teardowns (subscription l).

(** ** More sample data *)

(** An account with a padded proxy rule and a range. *)
Definition proxied_account : AccountConfig.t := {|
  AccountConfig.login := "proxied@example.org";
  AccountConfig.title := JUndefined;
  AccountConfig.entryUrl := JStr "https://mail.example.org";
  AccountConfig.database := JUndefined;
  AccountConfig.persistentSession := JBool true;
  AccountConfig.rotateUserAgent := JUndefined;
  AccountConfig.credentials := {|
    AccountConfig.password := JStr "secret";
    AccountConfig.twoFactorCode := JStr "123456";
    AccountConfig.mailPassword := JUndefined;
  |};
  AccountConfig.proxy := Some {|
    AccountConfig.proxyRules := JStr " socks5://127.0.0.1:9050";
    AccountConfig.proxyBypassRules := JUndefined;
  |};
  AccountConfig.loginDelayUntilSelected := JUndefined;
  AccountConfig.loginDelaySecondsRange :=
    Some {| AccountConfig.start := 30; AccountConfig.end_ := 60 |};
|}.

(** A fresh component whose range control holds an accepted range. *)
Definition accepted_range_state : State :=
  with_controls (set_loginDelaySecondsRange (JStr "5-10") Controls.initial) initial_state.

(** A stream that observes the login of the sample account. *)
Definition observing_stream : AccountStream := {|
  active := Some "user@example.org";
  buffered := [];
|}.

(** A user at work on a loaded form, and on a fresh one. *)
Definition loaded_session : list Event :=
  [ValueSet ControlName.title (JStr "Home"); SubmitCalled; RemoveCalled true; SubmitCalled].

Definition fresh_session : list Event :=
  [SubmitCalled; RemoveCalled true; ValueSet ControlName.login (JStr "new@example.org");
   SubmitCalled].

(** A store with the two sample accounts. *)
Definition sample_store : list AccountConfig.t := [sample_account; proxied_account].
(** ** String lemmas *)

Lemma trimStart_all_white_space (s : string) :
  all_white_space s = true -> trimStart s = EmptyString.
Proof.
  induction s as [|c s IH]; simpl; [reflexivity|].
  intros H. apply andb_true_iff in H as [Hc Hs].
  rewrite Hc. now apply IH.
Qed.

Lemma trim_all_white_space (s : string) :
  all_white_space s = true -> trim s = EmptyString.
Proof.
  intros H. unfold trim. now rewrite trimStart_all_white_space.
Qed.

Lemma trimStart_first_char (s : string) (c : ascii) :
  first_char (trimStart s) = Some c -> is_white_space c = false.
Proof.
  induction s as [|a s IH]; simpl; [discriminate|].
  destruct (is_white_space a) eqn:Ha; [exact IH|].
  simpl. intros [= <-]. exact Ha.
Qed.

Lemma trimEnd_empty_all_white_space (s : string) :
  trimEnd s = EmptyString -> all_white_space s = true.
Proof.
  induction s as [|a s IH]; simpl; [reflexivity|].
  destruct (trimEnd s) eqn:Hs.
  - destruct (is_white_space a); [intros _; now rewrite IH | discriminate].
  - discriminate.
Qed.

Lemma trimEnd_first_char (s : string) :
  trimEnd s <> EmptyString -> first_char (trimEnd s) = first_char s.
Proof.
  destruct s as [|a s]; simpl; [congruence|].
  destruct (trimEnd s); [destruct (is_white_space a)|]; simpl; congruence.
Qed.

Lemma trimEnd_last_char (s : string) (c : ascii) :
  last_char (trimEnd s) = Some c -> is_white_space c = false.
Proof.
  induction s as [|a s IH]; simpl; [discriminate|].
  destruct (trimEnd s) as [|b t] eqn:Hs.
  - destruct (is_white_space a) eqn:Ha; simpl; [discriminate|].
    intros [= <-]. exact Ha.
  - intros H. apply IH. exact H.
Qed.

Lemma trim_empty_iff (s : string) :
  trim s = EmptyString <-> all_white_space s = true.
Proof.
  split; [|apply trim_all_white_space].
  unfold trim. intros H. apply trimEnd_empty_all_white_space in H.
  induction s as [|a s IH]; simpl in *; [reflexivity|].
  destruct (is_white_space a) eqn:Ha; simpl in *.
  - now apply IH.
  - rewrite Ha in H. discriminate.
Qed.

(** A trimmed string neither starts nor ends with white space. *)
Lemma trim_surrounding (s : string) :
  (forall c, first_char (trim s) = Some c -> is_white_space c = false) /\
  (forall c, last_char (trim s) = Some c -> is_white_space c = false).
Proof.
  split; intros c H.
  - unfold trim in H.
    destruct (string_dec (trimEnd (trimStart s)) EmptyString) as [E|E].
    + rewrite E in H. discriminate.
    + rewrite (trimEnd_first_char _ E) in H.
      now apply trimStart_first_char with (s := s).
  - now apply trimEnd_last_char with (s := trimStart s).
Qed.

Lemma trimStart_decompose (s : string) :
  exists l, s = l ++ trimStart s /\ all_white_space l = true.
Proof.
  induction s as [|a s [l [E W]]]; simpl.
  - now exists EmptyString.
  - destruct (is_white_space a) eqn:Ha.
    + exists (String a l). simpl. rewrite Ha, W. split; [now f_equal | reflexivity].
    + now exists EmptyString.
Qed.

Lemma trimEnd_decompose (s : string) :
  exists r, s = trimEnd s ++ r /\ all_white_space r = true.
Proof.
  induction s as [|a s [r [E W]]]; simpl.
  - now exists EmptyString.
  - destruct (trimEnd s) as [|b t] eqn:Hs.
    + destruct (is_white_space a) eqn:Ha.
      * exists (String a r). simpl in *. rewrite Ha, W. split; [now f_equal | reflexivity].
      * exists r. simpl in *. split; [now f_equal | exact W].
    + exists r. simpl in *. split; [now f_equal | exact W].
Qed.

(** [trim] only removes white space, and only at the two ends. *)
Lemma trim_decompose (s : string) :
  exists l r, s = l ++ trim s ++ r /\
              all_white_space l = true /\ all_white_space r = true.
Proof.
  destruct (trimStart_decompose s) as [l [El Wl]].
  destruct (trimEnd_decompose (trimStart s)) as [r [Er Wr]].
  exists l, r. unfold trim. now rewrite <- Er.
Qed.


(** ** How [submit] runs *)

Section Submit.

Variable validateLoginDelaySecondsRange : Validator.

(** [submit] evaluates the patch; a throw leaves the state as it was, a
    patch is dispatched as one action. *)
Lemma submit_run (st : State) :
  submit validateLoginDelaySecondsRange st =
  match submit_patch validateLoginDelaySecondsRange (this st) with
  | Normal patch =>
      (Normal tt,
       {| this := this st;
          dispatched := (dispatched st ++ [submit_action (this st) patch])%list |})
  | Throw e => (Throw e, st)
  end.
Proof.
  unfold submit, mbind, get_this, lift, dispatch, submit_action.
  destruct (submit_patch validateLoginDelaySecondsRange (this st)); reflexivity.
Qed.

Lemma submit_throw (st : State) (e : JsError) :
  submit_patch validateLoginDelaySecondsRange (this st) = Throw e ->
  submit validateLoginDelaySecondsRange st = (Throw e, st).
Proof.
  intros H. now rewrite submit_run, H.
Qed.

Lemma submit_normal_inv (st st' : State) :
  submit validateLoginDelaySecondsRange st = (Normal tt, st') ->
  exists patch,
    submit_patch validateLoginDelaySecondsRange (this st) = Normal patch /\
    this st' = this st /\
    dispatched st' = (dispatched st ++ [submit_action (this st) patch])%list.
Proof.
  rewrite submit_run.
  destruct (submit_patch validateLoginDelaySecondsRange (this st)) as [patch|e];
    [|discriminate].
  intros [= <-]. exists patch. auto.
Qed.

(** The three fallible parts of the patch, when it is built. *)
Lemma submit_patch_inv (self : Component) (patch : Patch.t) :
  submit_patch validateLoginDelaySecondsRange self = Normal patch ->
  exists proxy,
    submit_proxy (controls self) = Normal proxy /\
    submit_login self = Normal (Patch.login patch) /\
    submit_loginDelaySecondsRange validateLoginDelaySecondsRange (controls self)
      = Normal (Patch.loginDelaySecondsRange patch) /\
    Patch.proxy patch = spread_proxy proxy.
Proof.
  unfold submit_patch, cbind.
  destruct (submit_proxy (controls self)) as [proxy|]; [|discriminate].
  destruct (submit_login self) as [login|]; [|discriminate].
  destruct (submit_loginDelaySecondsRange _ (controls self)) as [range|];
    [|discriminate].
  intros [= <-]. exists proxy. auto.
Qed.

(** A rejected non-empty range makes the patch throw, whatever else the
    controls hold. *)
Lemma submit_patch_rejected (self : Component) (msg : string) :
  truthy (Controls.loginDelaySecondsRange (controls self)) = true ->
  validateLoginDelaySecondsRange (Controls.loginDelaySecondsRange (controls self))
    = Normal (ValidationError msg) ->
  exists e, submit_patch validateLoginDelaySecondsRange self = Throw e.
Proof.
  intros Ht Hv. unfold submit_patch, cbind.
  destruct (submit_proxy (controls self)); [|eauto].
  destruct (submit_login self); [|eauto].
  unfold submit_loginDelaySecondsRange, cbind. rewrite Ht, Hv. eauto.
Qed.

Lemma truthy_JStr (s : string) : s <> "" -> truthy (JStr s) = true.
Proof.
  destruct s; [congruence | reflexivity].
Qed.

(** C1: if the loginDelaySecondsRange control holds a non-empty string
    that the external validator rejects, [submit] throws and the state is
    left as it was: the store receives no action at all. *)
Theorem submit_rejected_range_throws (st : State) (s msg : string) :
  Controls.loginDelaySecondsRange (controls (this st)) = JStr s ->
  s <> "" ->
  validateLoginDelaySecondsRange (JStr s) = Normal (ValidationError msg) ->
  exists e, submit validateLoginDelaySecondsRange st = (Throw e, st).
Proof.
  intros Hc Hs Hv.
  destruct (submit_patch_rejected (this st) msg) as [e He].
  - rewrite Hc. now apply truthy_JStr.
  - now rewrite Hc.
  - exists e. now apply submit_throw.
Qed.

(** C5: whenever [submit] completes, it has dispatched exactly one action;
    that action is an UpdateAccountRequest if and only if an account is
    loaded, and an AddAccountRequest if and only if none is.  Nothing but
    the presence of [this.account] selects the variant. *)
Theorem submit_variant_by_account (st st' : State) :
  submit validateLoginDelaySecondsRange st = (Normal tt, st') ->
  exists act,
    dispatched st' = (dispatched st ++ [act])%list /\
    (is_update act = true <-> account (this st) <> None) /\
    (is_add act = true <-> account (this st) = None) /\
    is_remove act = false.
Proof.
  intros H. apply submit_normal_inv in H as [patch [_ [_ Hd]]].
  exists (submit_action (this st) patch). split; [exact Hd|].
  unfold submit_action.
  destruct (account (this st)); simpl; repeat split; congruence.
Qed.

(** *** The proxy entry *)

Lemma and_trim_inv (v w : JsValue) :
  and_trim v = Normal w -> w = trimmed v /\ v <> JBool true.
Proof.
  unfold and_trim.
  destruct v as [| |[|]|[|c s]]; simpl; intros H; try discriminate;
    injection H as <-; split; (reflexivity || discriminate).
Qed.

Lemma truthy_trimmed_string (s : string) :
  truthy (JStr (trim s)) = negb (all_white_space s).
Proof.
  destruct (all_white_space s) eqn:W.
  - now rewrite (trim_all_white_space s W).
  - simpl. destruct (trim s) eqn:E; [|reflexivity].
    apply trim_empty_iff in E. congruence.
Qed.

Lemma truthy_trimmed (v : JsValue) :
  v <> JBool true -> truthy (trimmed v) = non_blank v.
Proof.
  destruct v as [| |[|]|s]; simpl; try reflexivity; [congruence|].
  intros _. apply truthy_trimmed_string.
Qed.

(** The proxy key of a built patch, from the two control values. *)
Lemma submit_patch_proxy (self : Component) (patch : Patch.t) :
  submit_patch validateLoginDelaySecondsRange self = Normal patch ->
  Patch.proxy patch =
  if non_blank (Controls.proxyRules (controls self))
     || non_blank (Controls.proxyBypassRules (controls self))
  then Some {|
    AccountConfig.proxyRules := trimmed (Controls.proxyRules (controls self));
    AccountConfig.proxyBypassRules := trimmed (Controls.proxyBypassRules (controls self));
  |}
  else None.
Proof.
  intros H. apply submit_patch_inv in H as [proxy [Hp [_ [_ Hs]]]].
  rewrite Hs. clear Hs. unfold submit_proxy, cbind in Hp.
  destruct (and_trim (Controls.proxyRules (controls self))) as [r|] eqn:Er;
    [|discriminate].
  destruct (and_trim (Controls.proxyBypassRules (controls self))) as [b|] eqn:Eb;
    [|discriminate].
  injection Hp as <-.
  apply and_trim_inv in Er as [-> Nr]. apply and_trim_inv in Eb as [-> Nb].
  unfold spread_proxy, js_or. simpl.
  rewrite <- (truthy_trimmed _ Nr), <- (truthy_trimmed _ Nb).
  destruct (truthy (trimmed (Controls.proxyRules (controls self)))) eqn:T1; simpl.
  - now rewrite T1.
  - reflexivity.
Qed.

Lemma js_empty_blank (v : JsValue) : js_empty v = true -> blank v = true.
Proof.
  destruct v as [| |b|[|c s]]; simpl; congruence.
Qed.

Lemma blank_non_blank (v : JsValue) : blank v = true -> non_blank v = false.
Proof.
  destruct v as [| |b|s]; simpl; try congruence. now intros ->.
Qed.

Lemma blank_and_trim (v : JsValue) :
  blank v = true -> exists w, and_trim v = Normal w /\ truthy w = false.
Proof.
  destruct v as [| |b|s]; simpl; try discriminate.
  - now exists JUndefined.
  - now exists JNull.
  - intros W. unfold and_trim. destruct (truthy (JStr s)) eqn:T.
    + exists (JStr (trim s)). split; [reflexivity|].
      now rewrite truthy_trimmed_string, W.
    + now exists (JStr s).
Qed.

(** What a completed [submit] has dispatched: one add or update action. *)
Lemma submit_normal_patch (st st' : State) :
  submit validateLoginDelaySecondsRange st = (Normal tt, st') ->
  exists act patch,
    dispatched st' = (dispatched st ++ [act])%list /\
    action_patch act = Some patch /\
    submit_patch validateLoginDelaySecondsRange (this st) = Normal patch.
Proof.
  intros H. apply submit_normal_inv in H as [patch [Hp [_ Hd]]].
  exists (submit_action (this st) patch), patch. split; [exact Hd|]. split; [|exact Hp].
  unfold submit_action. now destruct (account (this st)).
Qed.

(** C2 (amended): whenever [submit] dispatches, the patch has no proxy key
    if both proxy controls are empty, and has the proxy object with both
    fields, each string trimmed, if at least one of the two control
    values is a string that is not empty once trimmed. *)
Theorem submit_proxy_key (st st' : State) :
  submit validateLoginDelaySecondsRange st = (Normal tt, st') ->
  exists act patch,
    dispatched st' = (dispatched st ++ [act])%list /\
    action_patch act = Some patch /\
    (js_empty (Controls.proxyRules (controls (this st))) = true ->
     js_empty (Controls.proxyBypassRules (controls (this st))) = true ->
     Patch.proxy patch = None) /\
    (non_blank (Controls.proxyRules (controls (this st))) = true \/
     non_blank (Controls.proxyBypassRules (controls (this st))) = true ->
     Patch.proxy patch = Some {|
       AccountConfig.proxyRules := trimmed (Controls.proxyRules (controls (this st)));
       AccountConfig.proxyBypassRules :=
         trimmed (Controls.proxyBypassRules (controls (this st)));
     |}).
Proof.
  intros H. apply submit_normal_patch in H as [act [patch [Hd [Ha Hp]]]].
  exists act, patch. split; [exact Hd|]. split; [exact Ha|].
  apply submit_patch_proxy in Hp. split.
  - intros E1 E2. rewrite Hp.
    rewrite (blank_non_blank _ (js_empty_blank _ E1)).
    now rewrite (blank_non_blank _ (js_empty_blank _ E2)).
  - intros N. rewrite Hp.
    assert (non_blank (Controls.proxyRules (controls (this st)))
            || non_blank (Controls.proxyBypassRules (controls (this st))) = true) as ->
      by (apply orb_true_iff; exact N).
    reflexivity.
Qed.

(** C10: when both proxy control values are empty or consist of white
    space only, the proxy object evaluates to two falsy fields, the spread
    contributes nothing, and the patch of any dispatched action has no
    proxy key. *)
Theorem submit_blank_proxy_omitted (st : State) :
  blank (Controls.proxyRules (controls (this st))) = true ->
  blank (Controls.proxyBypassRules (controls (this st))) = true ->
  (exists proxy,
     submit_proxy (controls (this st)) = Normal proxy /\
     spread_proxy proxy = None) /\
  (forall st',
     submit validateLoginDelaySecondsRange st = (Normal tt, st') ->
     exists act patch,
       dispatched st' = (dispatched st ++ [act])%list /\
       action_patch act = Some patch /\
       Patch.proxy patch = None).
Proof.
  intros B1 B2. split.
  - destruct (blank_and_trim _ B1) as [r [Er Tr]].
    destruct (blank_and_trim _ B2) as [b [Eb Tb]].
    exists {| AccountConfig.proxyRules := r; AccountConfig.proxyBypassRules := b |}.
    unfold submit_proxy, cbind. rewrite Er, Eb. split; [reflexivity|].
    unfold spread_proxy, js_or. simpl. now rewrite Tr, Tb.
  - intros st' H. apply submit_normal_patch in H as [act [patch [Hd [Ha Hp]]]].
    exists act, patch. split; [exact Hd|]. split; [exact Ha|].
    apply submit_patch_proxy in Hp. rewrite Hp.
    now rewrite (blank_non_blank _ B1), (blank_non_blank _ B2).
Qed.

End Submit.

(** ** The login-delay range: control validator and [submit] *)

Section Validation.

Variable validateLoginDelaySecondsRange : Validator.

Lemma validator_on_string (c : Controls.t) (s : string) :
  Controls.loginDelaySecondsRange c = JStr s ->
  s <> "" ->
  loginDelaySecondsRange_validator validateLoginDelaySecondsRange (Some c) =
  match validateLoginDelaySecondsRange (JStr s) with
  | Normal (ValidationError msg) => Normal (Some {| errorMsg := msg |})
  | Normal (ValidRange _) => Normal None
  | Throw e => Throw e
  end.
Proof.
  intros Hc Hs. unfold loginDelaySecondsRange_validator, cbind.
  rewrite Hc, (truthy_JStr s Hs).
  now destruct (validateLoginDelaySecondsRange (JStr s)) as [[msg|r]|e].
Qed.

(** C7: for a non-empty string in the loginDelaySecondsRange control, the
    control's validator returns the error object carrying the external
    validator's message exactly when the external validator rejects the
    string, and returns null exactly when it accepts it; and whenever the
    control's validator reports an error, [submit] throws and dispatches
    nothing. *)
Theorem range_validator_agrees (c : Controls.t) (s : string) :
  Controls.loginDelaySecondsRange c = JStr s ->
  s <> "" ->
  (forall msg,
     loginDelaySecondsRange_validator validateLoginDelaySecondsRange (Some c)
       = Normal (Some {| errorMsg := msg |}) <->
     validateLoginDelaySecondsRange (JStr s) = Normal (ValidationError msg)) /\
  (loginDelaySecondsRange_validator validateLoginDelaySecondsRange (Some c)
     = Normal None <->
   exists range, validateLoginDelaySecondsRange (JStr s) = Normal (ValidRange range)) /\
  (forall errors st,
     controls (this st) = c ->
     loginDelaySecondsRange_validator validateLoginDelaySecondsRange (Some c)
       = Normal (Some errors) ->
     exists e, submit validateLoginDelaySecondsRange st = (Throw e, st)).
Proof.
  intros Hc Hs. rewrite (validator_on_string c s Hc Hs).
  destruct (validateLoginDelaySecondsRange (JStr s)) as [[m|r]|e] eqn:Hv.
  - split; [|split].
    + intros msg. split; intros [= ->]; reflexivity.
    + split; [discriminate | intros [range [=]]].
    + intros errors st Hst _.
      destruct (submit_patch_rejected validateLoginDelaySecondsRange (this st) m)
        as [e He].
      * rewrite Hst, Hc. now apply truthy_JStr.
      * now rewrite Hst, Hc.
      * exists e. now apply submit_throw.
  - split; [|split].
    + intros msg. split; discriminate.
    + split; [eauto | reflexivity].
    + intros errors st _ [=].
  - split; [|split].
    + intros msg. split; discriminate.
    + split; [discriminate | intros [range [=]]].
    + intros errors st _ [=].
Qed.

Lemma js_empty_falsy (v : JsValue) : js_empty v = true -> truthy v = false.
Proof.
  destruct v as [| |b|[|a s]]; simpl; congruence.
Qed.

Lemma submit_proxy_throws_TypeError (c : Controls.t) (e : JsError) :
  submit_proxy c = Throw e -> exists m, e = TypeError m.
Proof.
  unfold submit_proxy, cbind, and_trim.
  destruct (Controls.proxyRules c) as [| |[|]|[|a s]]; simpl;
    destruct (Controls.proxyBypassRules c) as [| |[|]|[|a' s']]; simpl;
    intros [= <-]; eauto.
Qed.

Lemma submit_login_throws_TypeError (self : Component) (e : JsError) :
  submit_login self = Throw e -> exists m, e = TypeError m.
Proof.
  unfold submit_login.
  destruct (account self); [discriminate|].
  destruct (Controls.login (controls self)); [discriminate|].
  intros [= <-]. eauto.
Qed.

(** With a falsy range value the patch is built without the validator. *)
Lemma submit_patch_falsy_range (other : Validator) (self : Component) :
  truthy (Controls.loginDelaySecondsRange (controls self)) = false ->
  submit_patch validateLoginDelaySecondsRange self = submit_patch other self.
Proof.
  intros T. unfold submit_patch, submit_loginDelaySecondsRange. now rewrite T.
Qed.

(** C9: when the loginDelaySecondsRange control holds null, undefined or
    the empty string, [submit] behaves the same with any validator in
    place of the external one (it is not consulted), the range expression
    evaluates to undefined without throwing, [submit] completes as soon as
    the proxy and login entries evaluate, any throw is a TypeError of those
    entries, every dispatched patch has an undefined
    loginDelaySecondsRange, and the control's validator returns null. *)
Theorem submit_empty_range (st : State) :
  js_empty (Controls.loginDelaySecondsRange (controls (this st))) = true ->
  (forall other : Validator,
     submit validateLoginDelaySecondsRange st = submit other st) /\
  submit_loginDelaySecondsRange validateLoginDelaySecondsRange (controls (this st))
    = Normal None /\
  (forall proxy login,
     submit_proxy (controls (this st)) = Normal proxy ->
     submit_login (this st) = Normal login ->
     exists st', submit validateLoginDelaySecondsRange st = (Normal tt, st')) /\
  (forall e st',
     submit validateLoginDelaySecondsRange st = (Throw e, st') ->
     exists m, e = TypeError m) /\
  (forall st',
     submit validateLoginDelaySecondsRange st = (Normal tt, st') ->
     exists act patch,
       dispatched st' = (dispatched st ++ [act])%list /\
       action_patch act = Some patch /\
       Patch.loginDelaySecondsRange patch = None) /\
  loginDelaySecondsRange_validator validateLoginDelaySecondsRange
    (Some (controls (this st))) = Normal None.
Proof.
  intros E. apply js_empty_falsy in E.
  assert (R : submit_loginDelaySecondsRange validateLoginDelaySecondsRange
                (controls (this st)) = Normal None)
    by (unfold submit_loginDelaySecondsRange; now rewrite E).
  repeat split.
  - intros other. rewrite !submit_run.
    now rewrite (submit_patch_falsy_range other (this st) E).
  - exact R.
  - intros proxy login Hp Hl. rewrite submit_run.
    unfold submit_patch, cbind. rewrite Hp, Hl, R. eauto.
  - intros e st'. rewrite submit_run. unfold submit_patch, cbind.
    destruct (submit_proxy (controls (this st))) as [proxy|e1] eqn:Hp.
    + destruct (submit_login (this st)) as [login|e2] eqn:Hl.
      * rewrite R. discriminate.
      * intros [= <- _]. now apply submit_login_throws_TypeError with (self := this st).
    + intros [= <- _]. now apply submit_proxy_throws_TypeError with (c := controls (this st)).
  - intros st' H.
    apply submit_normal_patch in H as [act [patch [Hd [Ha Hp]]]].
    exists act, patch. split; [exact Hd|]. split; [exact Ha|].
    apply submit_patch_inv in Hp as [_ [_ [_ [Hr _]]]].
    rewrite R in Hr. now injection Hr as <-.
  - unfold loginDelaySecondsRange_validator. now rewrite E.
Qed.

(** *** The login of the patch *)

Lemma submit_patch_set_login (c : Controls.t) (a : AccountConfig.t)
      (v : option JsValue) :
  submit_patch validateLoginDelaySecondsRange
    {| controls := set_login v c; account := Some a |} =
  submit_patch validateLoginDelaySecondsRange
    {| controls := c; account := Some a |}.
Proof.
  reflexivity.
Qed.

(** C8: with a loaded account every dispatched patch carries the account's
    login, and replacing or deleting the login control changes neither the
    completion of [submit] nor what it dispatches; with no account loaded
    the patch carries the value of the login control; and after the
    subscriber has handled an emitted account, the form group has no login
    control. *)
Theorem submit_login_of_account (st : State) :
  (forall a,
     account (this st) = Some a ->
     (forall st',
        submit validateLoginDelaySecondsRange st = (Normal tt, st') ->
        exists patch,
          dispatched st' = (dispatched st ++ [UpdateAccountRequest patch])%list /\
          Patch.login patch = JStr (AccountConfig.login a)) /\
     (forall v,
        let st_v := with_controls (set_login v (controls (this st))) st in
        fst (submit validateLoginDelaySecondsRange st_v)
          = fst (submit validateLoginDelaySecondsRange st) /\
        dispatched (snd (submit validateLoginDelaySecondsRange st_v))
          = dispatched (snd (submit validateLoginDelaySecondsRange st)))) /\
  (account (this st) = None ->
   forall st',
     submit validateLoginDelaySecondsRange st = (Normal tt, st') ->
     exists patch,
       dispatched st' = (dispatched st ++ [AddAccountRequest patch])%list /\
       Controls.login (controls (this st)) = Some (Patch.login patch)) /\
  (forall a,
     Controls.form_contains_login
       (controls (this (snd (account_subscriber a st)))) = false).
Proof.
  split; [|split].
  - intros a Ha. split.
    + intros st' H. apply submit_normal_inv in H as [patch [Hp [_ Hd]]].
      exists patch. unfold submit_action in Hd. rewrite Ha in Hd. split; [exact Hd|].
      apply submit_patch_inv in Hp as [_ [_ [Hl _]]].
      unfold submit_login in Hl. rewrite Ha in Hl. now injection Hl as <-.
    + intros v st_v. subst st_v. rewrite !submit_run.
      destruct st as [[c acc] d]. simpl in *. subst acc.
      unfold with_controls. simpl.
      rewrite submit_patch_set_login.
      now destruct (submit_patch _ _).
  - intros Ha st' H. apply submit_normal_inv in H as [patch [Hp [_ Hd]]].
    exists patch. unfold submit_action in Hd. rewrite Ha in Hd. split; [exact Hd|].
    apply submit_patch_inv in Hp as [_ [_ [Hl _]]].
    unfold submit_login in Hl. rewrite Ha in Hl.
    destruct (Controls.login (controls (this st))); [|discriminate].
    now injection Hl as <-.
  - intros a. reflexivity.
Qed.

End Validation.

(** ** The subscriber of [ngOnInit], the account stream and [remove] *)

(** C3 (amended): after the subscriber has handled an emitted account, the
    account is stored and every control except login holds the value taken
    from the account: the field itself for title, database,
    persistentSession, rotateUserAgent, entryUrl, the three credentials and
    loginDelayUntilSelected; the proxy's two fields, or null when the account
    has no proxy; the range written start-end, or undefined when the account
    has no range.  The login control is not given a value: it is removed.
    Nothing is dispatched. *)
Theorem subscriber_republishes_fields (a : AccountConfig.t) (st : State) :
  let r := account_subscriber a st in
  let c := controls (this (snd r)) in
  fst r = Normal tt /\
  account (this (snd r)) = Some a /\
  dispatched (snd r) = dispatched st /\
  Controls.title c = AccountConfig.title a /\
  Controls.database c = AccountConfig.database a /\
  Controls.persistentSession c = AccountConfig.persistentSession a /\
  Controls.rotateUserAgent c = AccountConfig.rotateUserAgent a /\
  Controls.entryUrl c = AccountConfig.entryUrl a /\
  Controls.proxyRules c =
    match AccountConfig.proxy a with
    | Some p => AccountConfig.proxyRules p
    | None => JNull
    end /\
  Controls.proxyBypassRules c =
    match AccountConfig.proxy a with
    | Some p => AccountConfig.proxyBypassRules p
    | None => JNull
    end /\
  Controls.password c = AccountConfig.password (AccountConfig.credentials a) /\
  Controls.twoFactorCode c = AccountConfig.twoFactorCode (AccountConfig.credentials a) /\
  Controls.mailPassword c = AccountConfig.mailPassword (AccountConfig.credentials a) /\
  Controls.loginDelayUntilSelected c = AccountConfig.loginDelayUntilSelected a /\
  Controls.loginDelaySecondsRange c =
    match AccountConfig.loginDelaySecondsRange a with
    | Some range => JStr (range_to_string range)
    | None => JUndefined
    end /\
  Controls.login c = None.
Proof.
  cbv zeta. unfold account_subscriber, mbind, get_this, set_this. simpl.
  repeat split.
Qed.

(** C4: [remove] with no account loaded throws and leaves the state as it
    was; with an account loaded and the confirmation declined it completes
    and leaves the state as it was; with the confirmation accepted it
    completes having dispatched exactly one RemoveAccountRequest carrying
    the loaded account, the component unchanged. *)
Theorem remove_cases (confirm : string -> bool) (st : State) :
  (account (this st) = None ->
   remove confirm st = (Throw remove_error, st)) /\
  (forall a,
     account (this st) = Some a ->
     confirm (remove_prompt a) = false ->
     remove confirm st = (Normal tt, st)) /\
  (forall a,
     account (this st) = Some a ->
     confirm (remove_prompt a) = true ->
     remove confirm st =
     (Normal tt,
      {| this := this st;
         dispatched := (dispatched st ++ [RemoveAccountRequest a])%list |})).
Proof.
  unfold remove, mbind, get_this, throw, ret, lift, dispatch.
  split; [|split].
  - now intros ->.
  - intros a -> C. now rewrite C.
  - intros a -> C. now rewrite C.
Qed.

Lemma deliver_nil (st : State) : deliver [] st = st.
Proof.
  reflexivity.
Qed.

Lemma account_stream_no_match {StoreState : Type}
      (pickAccount : StoreState -> string -> option AccountConfig.t)
      (store : StoreState) (login : JsValue) (s : AccountStream) :
  pickAccount store (js_String login) = None ->
  snd (account_stream_on_params pickAccount store login s) = [].
Proof.
  intros H. unfold account_stream_on_params.
  destruct (truthy login); [|reflexivity].
  destruct (active s); [reflexivity|].
  simpl. now rewrite H.
Qed.

(** C6: when a parameter emission carries a login for which the store has
    no matching account, the account stream emits nothing, and the state of
    the subscribed component (its stored account, every control value) and
    of the store's received actions is what it was. *)
Theorem params_without_account_change_nothing {StoreState : Type}
    (pickAccount : StoreState -> string -> option AccountConfig.t)
    (store : StoreState) (login : JsValue) (s : AccountStream) (st : State) :
  truthy login = true ->
  pickAccount store (js_String login) = None ->
  snd (account_stream_on_params pickAccount store login s) = [] /\
  snd (on_params_emission pickAccount store login (s, st)) = st.
Proof.
  intros _ H.
  pose proof (account_stream_no_match pickAccount store login s H) as E.
  split; [exact E|].
  unfold on_params_emission. simpl.
  destruct (account_stream_on_params pickAccount store login s) as [s' out].
  simpl in E. subst out. apply deliver_nil.
Qed.

(** ** The theorems at concrete inputs *)

(** A fresh form holding the range 10-5: [submit] throws, nothing reaches
    the store. *)
Lemma submit_rejected_range_throws_witness :
  Controls.loginDelaySecondsRange (controls (this reversed_range_state)) = JStr "10-5" /\
  validateLoginDelaySecondsRange_model (JStr "10-5")
    = Normal (ValidationError "Start value is bigger than end value.") /\
  exists e,
    submit validateLoginDelaySecondsRange_model reversed_range_state
      = (Throw e, reversed_range_state).
Proof.
  split; [reflexivity|]. split; [reflexivity|].
  apply (submit_rejected_range_throws validateLoginDelaySecondsRange_model
           reversed_range_state "10-5" "Start value is bigger than end value.");
    [reflexivity | discriminate | reflexivity].
Defined.

(** One space in the proxy rules of a fresh form: the control value is not
    empty, [submit] dispatches, and the dispatched patch has no proxy key. *)
Lemma submit_space_proxy_counterexample :
  js_empty (Controls.proxyRules (controls (this space_proxy_state))) = false /\
  exists patch,
    submit validateLoginDelaySecondsRange_model space_proxy_state =
    (Normal tt,
     {| this := this space_proxy_state; dispatched := [AddAccountRequest patch] |}) /\
    Patch.proxy patch = None.
Proof.
  split; [reflexivity|].
  eexists. split; reflexivity.
Qed.

Lemma submit_proxy_key_witness :
  exists act patch,
    dispatched (snd (submit validateLoginDelaySecondsRange_model padded_proxy_state))
      = (dispatched padded_proxy_state ++ [act])%list /\
    action_patch act = Some patch /\
    Patch.proxy patch = Some {|
      AccountConfig.proxyRules := JStr "socks5://127.0.0.1:9050";
      AccountConfig.proxyBypassRules := JStr "";
    |}.
Proof.
  destruct (submit_proxy_key validateLoginDelaySecondsRange_model padded_proxy_state
              (snd (submit validateLoginDelaySecondsRange_model padded_proxy_state))
              eq_refl)
    as [act [patch [Hd [Ha [_ Hp]]]]].
  exists act, patch. split; [exact Hd|]. split; [exact Ha|].
  apply Hp. left. reflexivity.
Defined.

(** The sample account loaded into a fresh component: the login control is
    gone, so it does not hold the account's login. *)
Lemma subscriber_login_control_counterexample :
  Controls.login (controls (this (snd (account_subscriber sample_account initial_state))))
  <> Some (JStr (AccountConfig.login sample_account)).
Proof.
  discriminate.
Qed.

Lemma remove_cases_witness :
  remove (fun _ => true) initial_state = (Throw remove_error, initial_state) /\
  remove (fun _ => false) loaded_state = (Normal tt, loaded_state) /\
  remove (fun _ => true) loaded_state =
  (Normal tt,
   {| this := this loaded_state;
      dispatched := [RemoveAccountRequest sample_account] |}).
Proof.
  split; [|split].
  - apply (remove_cases (fun _ => true) initial_state). reflexivity.
  - apply (remove_cases (fun _ => false) loaded_state) with (a := sample_account);
      reflexivity.
  - apply (remove_cases (fun _ => true) loaded_state) with (a := sample_account);
      reflexivity.
Defined.

Lemma submit_variant_by_account_witness :
  exists act,
    dispatched (snd (submit validateLoginDelaySecondsRange_model loaded_state))
      = (dispatched loaded_state ++ [act])%list /\
    (is_update act = true <-> account (this loaded_state) <> None) /\
    (is_add act = true <-> account (this loaded_state) = None) /\
    is_remove act = false.
Proof.
  apply (submit_variant_by_account validateLoginDelaySecondsRange_model loaded_state
           (snd (submit validateLoginDelaySecondsRange_model loaded_state))).
  reflexivity.
Defined.

(** The store holds the sample account only; the parameters name another
    login. *)
Lemma params_without_account_change_nothing_witness :
  pickAccount_model [sample_account] (js_String (JStr "nobody@example.org")) = None /\
  snd (account_stream_on_params pickAccount_model [sample_account]
         (JStr "nobody@example.org") account_stream_initial) = [] /\
  snd (on_params_emission pickAccount_model [sample_account]
         (JStr "nobody@example.org") (account_stream_initial, initial_state))
    = initial_state.
Proof.
  split; [reflexivity|].
  apply (params_without_account_change_nothing pickAccount_model [sample_account]
           (JStr "nobody@example.org") account_stream_initial initial_state);
    reflexivity.
Defined.

Lemma range_validator_agrees_witness :
  loginDelaySecondsRange_validator validateLoginDelaySecondsRange_model
    (Some (controls (this reversed_range_state)))
    = Normal (Some {| errorMsg := "Start value is bigger than end value." |}) /\
  exists e,
    submit validateLoginDelaySecondsRange_model reversed_range_state
      = (Throw e, reversed_range_state).
Proof.
  destruct (range_validator_agrees validateLoginDelaySecondsRange_model
              (controls (this reversed_range_state)) "10-5" eq_refl)
    as [Hrej [_ Hblock]]; [discriminate|].
  assert (E : loginDelaySecondsRange_validator validateLoginDelaySecondsRange_model
                (Some (controls (this reversed_range_state)))
              = Normal (Some {| errorMsg := "Start value is bigger than end value." |}))
    by (apply Hrej; reflexivity).
  split; [exact E|].
  exact (Hblock _ reversed_range_state eq_refl E).
Defined.

Lemma submit_login_of_account_witness :
  (exists patch,
     dispatched (snd (submit validateLoginDelaySecondsRange_model loaded_state))
       = [UpdateAccountRequest patch] /\
     Patch.login patch = JStr "user@example.org") /\
  Controls.form_contains_login
    (controls (this (snd (account_subscriber sample_account initial_state)))) = false.
Proof.
  destruct (submit_login_of_account validateLoginDelaySecondsRange_model loaded_state)
    as [Hloaded _].
  destruct (Hloaded sample_account eq_refl) as [Hpatch _].
  split.
  - exact (Hpatch (snd (submit validateLoginDelaySecondsRange_model loaded_state)) eq_refl).
  - apply (submit_login_of_account validateLoginDelaySecondsRange_model initial_state).
Defined.

(** A fresh form: the range control holds null. *)
Lemma submit_empty_range_witness :
  (exists st', submit validateLoginDelaySecondsRange_model initial_state = (Normal tt, st')) /\
  loginDelaySecondsRange_validator validateLoginDelaySecondsRange_model
    (Some (controls (this initial_state))) = Normal None.
Proof.
  destruct (submit_empty_range validateLoginDelaySecondsRange_model initial_state eq_refl)
    as [_ [_ [Hcompletes [_ [_ Hvalid]]]]].
  split; [|exact Hvalid].
  apply (Hcompletes {| AccountConfig.proxyRules := JNull;
                       AccountConfig.proxyBypassRules := JNull |} JNull);
    reflexivity.
Defined.

Lemma submit_blank_proxy_omitted_witness :
  exists proxy,
    submit_proxy (controls (this space_proxy_state)) = Normal proxy /\
    spread_proxy proxy = None.
Proof.
  apply (submit_blank_proxy_omitted validateLoginDelaySecondsRange_model space_proxy_state);
    reflexivity.
Defined.

(** ** More on [submit] *)

Section SubmitOutcome.

Variable validateLoginDelaySecondsRange : Validator.

Lemma and_trim_normal_iff (v : JsValue) :
  (exists w, and_trim v = Normal w) <-> v <> JBool true.
Proof.
  unfold and_trim.
  destruct v as [| |[|]|[|a s]]; simpl; split; intros H;
    try congruence; try (eexists; reflexivity).
  destruct H as [w H]. discriminate.
Qed.

Lemma submit_proxy_normal_iff (c : Controls.t) :
  (exists proxy, submit_proxy c = Normal proxy) <->
  Controls.proxyRules c <> JBool true /\ Controls.proxyBypassRules c <> JBool true.
Proof.
  unfold submit_proxy, cbind. split.
  - intros [proxy H].
    destruct (and_trim (Controls.proxyRules c)) as [r|] eqn:Er; [|discriminate].
    destruct (and_trim (Controls.proxyBypassRules c)) as [b|] eqn:Eb; [|discriminate].
    split; apply and_trim_normal_iff; eauto.
  - intros [Hr Hb].
    apply and_trim_normal_iff in Hr as [r ->].
    apply and_trim_normal_iff in Hb as [b ->]. eauto.
Qed.

Lemma submit_login_normal_iff (self : Component) :
  (exists login, submit_login self = Normal login) <->
  (account self = None -> Controls.login (controls self) <> None).
Proof.
  unfold submit_login. destruct (account self) as [a|].
  - split; [discriminate | eauto].
  - destruct (Controls.login (controls self)) as [v|].
    + split; [discriminate | eauto].
    + split; [intros [login H]; discriminate | intros H; now destruct H].
Qed.

Lemma submit_range_normal_iff (c : Controls.t) :
  (exists range,
     submit_loginDelaySecondsRange validateLoginDelaySecondsRange c = Normal range) <->
  truthy (Controls.loginDelaySecondsRange c) = false \/
  exists range,
    validateLoginDelaySecondsRange (Controls.loginDelaySecondsRange c)
      = Normal (ValidRange range).
Proof.
  unfold submit_loginDelaySecondsRange, cbind.
  destruct (truthy (Controls.loginDelaySecondsRange c)).
  - destruct (validateLoginDelaySecondsRange (Controls.loginDelaySecondsRange c))
      as [[msg|r]|e].
    + split; [intros [range H]; discriminate|].
      intros [H|[range H]]; discriminate.
    + split; eauto.
    + split; [intros [range H]; discriminate|].
      intros [H|[range H]]; discriminate.
  - split; eauto.
Qed.

(** X1: [submit] never changes the component, so calling it again repeats
    it: after a call that dispatched an action, the next call completes too
    and dispatches the same action once more. *)
Theorem submit_repeats (st st' : State) :
  submit validateLoginDelaySecondsRange st = (Normal tt, st') ->
  exists act,
    this st' = this st /\
    dispatched st' = (dispatched st ++ [act])%list /\
    submit validateLoginDelaySecondsRange st' =
    (Normal tt,
     {| this := this st; dispatched := (dispatched st ++ [act; act])%list |}).
Proof.
  intros H. apply submit_normal_inv in H as [patch [Hp [Ht Hd]]].
  exists (submit_action (this st) patch). split; [exact Ht|]. split; [exact Hd|].
  rewrite submit_run, Ht, Hp, Hd, <- app_assoc. reflexivity.
Qed.

(** X2: [submit] completes, dispatching an action, exactly when neither
    proxy control holds [true] (a truthy value without [trim]), an account is
    loaded or the login control exists, and the range control is falsy or
    holds a value the external validator accepts. *)
Theorem submit_completes_iff (st : State) :
  (exists st', submit validateLoginDelaySecondsRange st = (Normal tt, st')) <->
  Controls.proxyRules (controls (this st)) <> JBool true /\
  Controls.proxyBypassRules (controls (this st)) <> JBool true /\
  (account (this st) = None -> Controls.login (controls (this st)) <> None) /\
  (truthy (Controls.loginDelaySecondsRange (controls (this st))) = false \/
   exists range,
     validateLoginDelaySecondsRange (Controls.loginDelaySecondsRange (controls (this st)))
       = Normal (ValidRange range)).
Proof.
  split.
  - intros [st' H]. apply submit_normal_inv in H as [patch [Hp _]].
    apply submit_patch_inv in Hp as [proxy [Hx [Hl [Hr _]]]].
    assert (P : exists p, submit_proxy (controls (this st)) = Normal p) by eauto.
    apply submit_proxy_normal_iff in P as [P1 P2].
    split; [exact P1|]. split; [exact P2|]. split.
    + apply submit_login_normal_iff. eauto.
    + apply submit_range_normal_iff. eauto.
  - intros [P1 [P2 [L R]]].
    destruct (proj2 (submit_proxy_normal_iff (controls (this st))) (conj P1 P2))
      as [proxy Hx].
    apply submit_login_normal_iff in L as [login Hl].
    apply submit_range_normal_iff in R as [range Hr].
    rewrite submit_run. unfold submit_patch, cbind. rewrite Hx, Hl, Hr. eauto.
Qed.

(** X3: when [submit] throws, the state is what it was, and the error is a
    TypeError (a proxy value without [trim], or no login control), or the
    range control is truthy and the error is the one the external validator
    threw or an Error with the message of its rejection. *)
Theorem submit_throw_reasons (st st' : State) (e : JsError) :
  submit validateLoginDelaySecondsRange st = (Throw e, st') ->
  st' = st /\
  ((exists m, e = TypeError m) \/
   (truthy (Controls.loginDelaySecondsRange (controls (this st))) = true /\
    (validateLoginDelaySecondsRange (Controls.loginDelaySecondsRange (controls (this st)))
       = Throw e \/
     exists msg,
       validateLoginDelaySecondsRange (Controls.loginDelaySecondsRange (controls (this st)))
         = Normal (ValidationError msg) /\
       e = Error msg))).
Proof.
  rewrite submit_run. unfold submit_patch, cbind.
  destruct (submit_proxy (controls (this st))) as [proxy|e1] eqn:Hx.
  - destruct (submit_login (this st)) as [login|e2] eqn:Hl.
    + unfold submit_loginDelaySecondsRange, cbind.
      destruct (truthy (Controls.loginDelaySecondsRange (controls (this st)))) eqn:T;
        [|discriminate].
      destruct (validateLoginDelaySecondsRange
                  (Controls.loginDelaySecondsRange (controls (this st))))
        as [[msg|r]|e3] eqn:Hv.
      * intros [= <- <-]. split; [reflexivity|]. right. split; [reflexivity|].
        right. exists msg. auto.
      * discriminate.
      * intros [= <- <-]. split; [reflexivity|]. right. split; [reflexivity|].
        now left.
    + intros [= <- <-]. split; [reflexivity|]. left.
      now apply submit_login_throws_TypeError with (self := this st).
  - intros [= <- <-]. split; [reflexivity|]. left.
    now apply submit_proxy_throws_TypeError with (c := controls (this st)).
Qed.

(** X4: when the range control is truthy and the external validator accepts
    it, every patch [submit] dispatches carries the range the validator
    returned, not the string of the control. *)
Theorem submit_accepted_range (st st' : State) (range : AccountConfig.Range) :
  truthy (Controls.loginDelaySecondsRange (controls (this st))) = true ->
  validateLoginDelaySecondsRange (Controls.loginDelaySecondsRange (controls (this st)))
    = Normal (ValidRange range) ->
  submit validateLoginDelaySecondsRange st = (Normal tt, st') ->
  exists act patch,
    dispatched st' = (dispatched st ++ [act])%list /\
    action_patch act = Some patch /\
    Patch.loginDelaySecondsRange patch = Some range.
Proof.
  intros T Hv H. apply submit_normal_patch in H as [act [patch [Hd [Ha Hp]]]].
  exists act, patch. split; [exact Hd|]. split; [exact Ha|].
  apply submit_patch_inv in Hp as [_ [_ [_ [Hr _]]]].
  unfold submit_loginDelaySecondsRange, cbind in Hr. rewrite T, Hv in Hr.
  now injection Hr as <-.
Qed.

Lemma trimmed_string_inv (v : JsValue) (s : string) :
  trimmed v = JStr s -> exists s0, v = JStr s0 /\ s = trim s0.
Proof.
  destruct v as [| |b|s0]; simpl; try discriminate.
  intros [= <-]. eauto.
Qed.

Lemma non_blank_trimmed (v : JsValue) :
  non_blank v = true -> exists s, trimmed v = JStr s /\ s <> "".
Proof.
  destruct v as [| |b|s0]; simpl; try discriminate.
  intros N. exists (trim s0). split; [reflexivity|].
  intros E. apply trim_empty_iff in E. rewrite E in N. discriminate.
Qed.

(** X5: a proxy object in a dispatched patch is never empty and never
    padded: one of its two fields is a non-empty string, and a field that is
    a string neither starts nor ends with white space. *)
Theorem submit_proxy_fields_trimmed (st st' : State) :
  submit validateLoginDelaySecondsRange st = (Normal tt, st') ->
  exists act patch,
    dispatched st' = (dispatched st ++ [act])%list /\
    action_patch act = Some patch /\
    forall proxy,
      Patch.proxy patch = Some proxy ->
      (exists s,
         (AccountConfig.proxyRules proxy = JStr s \/
          AccountConfig.proxyBypassRules proxy = JStr s) /\
         s <> "") /\
      (forall s,
         AccountConfig.proxyRules proxy = JStr s \/
         AccountConfig.proxyBypassRules proxy = JStr s ->
         (forall c, first_char s = Some c -> is_white_space c = false) /\
         (forall c, last_char s = Some c -> is_white_space c = false)).
Proof.
  intros H. apply submit_normal_patch in H as [act [patch [Hd [Ha Hp]]]].
  exists act, patch. split; [exact Hd|]. split; [exact Ha|].
  intros proxy Hproxy. apply submit_patch_proxy in Hp. rewrite Hproxy in Hp.
  destruct (non_blank (Controls.proxyRules (controls (this st)))
            || non_blank (Controls.proxyBypassRules (controls (this st)))) eqn:N;
    [|discriminate].
  injection Hp as ->. simpl. split.
  - apply orb_true_iff in N as [N|N];
      apply non_blank_trimmed in N as [s [E Hs]]; exists s; auto.
  - intros s [E|E]; apply trimmed_string_inv in E as [s0 [_ ->]];
      apply trim_surrounding.
Qed.

(** X6: the validator of the range control and the check in [submit] agree
    on every control value: the validator returns null exactly when the
    range expression of [submit] evaluates; an error object of the validator
    means [submit] throws an Error with that message; a throw of the
    validator is the throw of [submit].  While [this.controls] is still
    undefined the validator returns null. *)
Theorem range_validator_matches_submit (c : Controls.t) :
  (loginDelaySecondsRange_validator validateLoginDelaySecondsRange (Some c) = Normal None <->
   exists range,
     submit_loginDelaySecondsRange validateLoginDelaySecondsRange c = Normal range) /\
  (forall msg,
     loginDelaySecondsRange_validator validateLoginDelaySecondsRange (Some c)
       = Normal (Some {| errorMsg := msg |}) ->
     submit_loginDelaySecondsRange validateLoginDelaySecondsRange c = Throw (Error msg)) /\
  (forall e,
     loginDelaySecondsRange_validator validateLoginDelaySecondsRange (Some c) = Throw e ->
     submit_loginDelaySecondsRange validateLoginDelaySecondsRange c = Throw e) /\
  loginDelaySecondsRange_validator validateLoginDelaySecondsRange None = Normal None.
Proof.
  unfold loginDelaySecondsRange_validator, submit_loginDelaySecondsRange, cbind.
  destruct (truthy (Controls.loginDelaySecondsRange c)).
  - destruct (validateLoginDelaySecondsRange (Controls.loginDelaySecondsRange c))
      as [[m|r]|e0]; repeat split; try discriminate; eauto.
    + intros [range H]. discriminate.
    + intros msg [= ->]. reflexivity.
    + intros [range H]. discriminate.
    + intros e [= ->]. reflexivity.
  - repeat split; try discriminate; eauto.
Qed.

End SubmitOutcome.

(** ** Loading an account, then submitting *)

Lemma and_trim_trimmed (v : JsValue) :
  v <> JBool true -> and_trim v = Normal (trimmed v).
Proof.
  unfold and_trim. intros H.
  destruct v as [| |[|]|[|a s]]; try reflexivity. now destruct H.
Qed.

Lemma range_to_string_truthy (r : AccountConfig.Range) :
  truthy (JStr (range_to_string r)) = true.
Proof.
  unfold range_to_string.
  now destruct (number_to_string (AccountConfig.start r)).
Qed.

Lemma spread_proxy_trimmed (r b : JsValue) :
  r <> JBool true -> b <> JBool true ->
  spread_proxy {| AccountConfig.proxyRules := trimmed r;
                  AccountConfig.proxyBypassRules := trimmed b |} =
  if non_blank r || non_blank b
  then Some {| AccountConfig.proxyRules := trimmed r;
               AccountConfig.proxyBypassRules := trimmed b |}
  else None.
Proof.
  intros Hr Hb. unfold spread_proxy, js_or. simpl.
  rewrite <- (truthy_trimmed r Hr), <- (truthy_trimmed b Hb).
  destruct (truthy (trimmed r)) eqn:T; simpl; [now rewrite T | reflexivity].
Qed.

(** X7: an account loaded by the subscriber and submitted without an edit
    is dispatched as one UpdateAccountRequest whose patch gives the account
    back: login, title, entry URL and credentials as they are, the four
    flags as booleans, the proxy with its strings trimmed (left out when the
    account has none or only blank rules), and the range the validator
    returns for the start-end string.  It needs proxy rules that are not
    [true] and a validator that accepts an account's own range. *)
Theorem load_then_submit (validateLoginDelaySecondsRange : Validator)
    (a : AccountConfig.t) (st : State) :
  (forall p,
     AccountConfig.proxy a = Some p ->
     AccountConfig.proxyRules p <> JBool true /\
     AccountConfig.proxyBypassRules p <> JBool true) ->
  (forall r,
     AccountConfig.loginDelaySecondsRange a = Some r ->
     validateLoginDelaySecondsRange (JStr (range_to_string r)) = Normal (ValidRange r)) ->
  let st1 := snd (account_subscriber a st) in
  submit validateLoginDelaySecondsRange st1 =
  (Normal tt,
   {| this := this st1;
      dispatched :=
        (dispatched st ++
         [UpdateAccountRequest {|
            Patch.login := JStr (AccountConfig.login a);
            Patch.title := AccountConfig.title a;
            Patch.entryUrl := AccountConfig.entryUrl a;
            Patch.database := Boolean (AccountConfig.database a);
            Patch.persistentSession := Boolean (AccountConfig.persistentSession a);
            Patch.rotateUserAgent := Boolean (AccountConfig.rotateUserAgent a);
            Patch.credentials := AccountConfig.credentials a;
            Patch.proxy :=
              match AccountConfig.proxy a with
              | Some p =>
                  if non_blank (AccountConfig.proxyRules p)
                     || non_blank (AccountConfig.proxyBypassRules p)
                  then Some {|
                    AccountConfig.proxyRules := trimmed (AccountConfig.proxyRules p);
                    AccountConfig.proxyBypassRules :=
                      trimmed (AccountConfig.proxyBypassRules p);
                  |}
                  else None
              | None => None
              end;
            Patch.loginDelayUntilSelected :=
              Boolean (AccountConfig.loginDelayUntilSelected a);
            Patch.loginDelaySecondsRange := AccountConfig.loginDelaySecondsRange a;
          |}])%list |}).
Proof.
  intros Hproxy Hrange st1. subst st1. rewrite submit_run.
  set (self := this (snd (account_subscriber a st))).
  assert (Hx : submit_proxy (controls self) =
               Normal match AccountConfig.proxy a with
                      | Some p => {|
                          AccountConfig.proxyRules := trimmed (AccountConfig.proxyRules p);
                          AccountConfig.proxyBypassRules :=
                            trimmed (AccountConfig.proxyBypassRules p) |}
                      | None => {|
                          AccountConfig.proxyRules := JNull;
                          AccountConfig.proxyBypassRules := JNull |}
                      end).
  { unfold submit_proxy, cbind.
    change (Controls.proxyRules (controls self))
      with (match AccountConfig.proxy a with
            | Some p => AccountConfig.proxyRules p
            | None => JNull
            end).
    change (Controls.proxyBypassRules (controls self))
      with (match AccountConfig.proxy a with
            | Some p => AccountConfig.proxyBypassRules p
            | None => JNull
            end).
    destruct (AccountConfig.proxy a) as [p|]; [|reflexivity].
    destruct (Hproxy p eq_refl) as [Hr Hb].
    now rewrite (and_trim_trimmed _ Hr), (and_trim_trimmed _ Hb). }
  assert (Hr : submit_loginDelaySecondsRange validateLoginDelaySecondsRange (controls self)
               = Normal (AccountConfig.loginDelaySecondsRange a)).
  { unfold submit_loginDelaySecondsRange, cbind.
    change (Controls.loginDelaySecondsRange (controls self))
      with (match AccountConfig.loginDelaySecondsRange a with
            | Some range => JStr (range_to_string range)
            | None => JUndefined
            end).
    destruct (AccountConfig.loginDelaySecondsRange a) as [r|] eqn:E; [|reflexivity].
    now rewrite range_to_string_truthy, (Hrange r eq_refl). }
  unfold submit_patch, cbind. rewrite Hx, Hr.
  change (submit_login self) with (Normal (JStr (AccountConfig.login a))).
  cbv iota beta.
  change (dispatched (snd (account_subscriber a st))) with (dispatched st).
  change (submit_action self) with UpdateAccountRequest.
  do 4 f_equal.
  destruct a as [login title entryUrl database persistent rotate [pw tf mp] proxy
                   untilSelected range].
  destruct proxy as [[pr pb]|]; [|reflexivity].
  destruct (Hproxy _ eq_refl) as [Hpr Hpb].
  cbn [AccountConfig.proxy AccountConfig.proxyRules AccountConfig.proxyBypassRules] in *.
  now rewrite (spread_proxy_trimmed pr pb Hpr Hpb).
Qed.

Lemma deliver_app (xs ys : list AccountConfig.t) (st : State) :
  deliver (xs ++ ys) st = deliver ys (deliver xs st).
Proof.
  revert st. induction xs as [|x xs IH]; intros st; simpl; [reflexivity|].
  apply IH.
Qed.

Lemma deliver_dispatched (accounts : list AccountConfig.t) (st : State) :
  dispatched (deliver accounts st) = dispatched st.
Proof.
  revert st. induction accounts as [|x xs IH]; intros st; simpl; [reflexivity|].
  now rewrite IH.
Qed.

(** X8: after any run of account emissions the component is the one the
    last account alone gives a fresh component: whatever the controls held
    before, edits included, is overwritten by every emission, and the
    subscriber dispatches nothing. *)
Theorem last_emission_wins (accounts : list AccountConfig.t) (a : AccountConfig.t)
    (st : State) :
  this (deliver (accounts ++ [a]) st) = this (snd (account_subscriber a initial_state)) /\
  dispatched (deliver (accounts ++ [a]) st) = dispatched st.
Proof.
  split; [|apply deliver_dispatched].
  rewrite deliver_app. reflexivity.
Qed.

(** ** The account stream over time *)

Section AccountStreamFacts.

Context {StoreState : Type}.
Variable pickAccount : StoreState -> string -> option AccountConfig.t.

(** X9: an emission whose login entry is missing, null, false or the empty
    string is dropped before the store is read: the stream keeps its state
    and emits nothing, and the component and the store's actions stay as
    they are, whatever the store holds. *)
Theorem params_without_login_dropped (store : StoreState) (login : JsValue)
    (s : AccountStream) (st : State) :
  truthy login = false ->
  account_stream_on_params pickAccount store login s = (s, []) /\
  on_params_emission pickAccount store login (s, st) = (s, st).
Proof.
  intros T. unfold on_params_emission, account_stream_on_params. simpl.
  rewrite T. split; reflexivity.
Qed.

(** X10: once a login is under observation, a further parameter emission
    never emits an account and never replaces the observed login, whatever
    login it carries and whatever the store holds for it; a truthy login is
    put behind the ones already waiting.  The component is left as it is. *)
Theorem params_while_observing_buffered (store : StoreState) (login : JsValue)
    (s : AccountStream) (st : State) (observed : string) :
  active s = Some observed ->
  let s' := fst (account_stream_on_params pickAccount store login s) in
  snd (account_stream_on_params pickAccount store login s) = [] /\
  active s' = Some observed /\
  buffered s' =
    (if truthy login then buffered s ++ [js_String login] else buffered s)%list /\
  snd (on_params_emission pickAccount store login (s, st)) = st.
Proof.
  intros A. unfold on_params_emission, account_stream_on_params. simpl.
  destruct (truthy login); rewrite ?A; simpl; auto.
Qed.




(** X13: an emission with a truthy login into a stream that observes none
    yet, for which the store has an account, loads that account: the
    subscriber runs once with it, so the component stores it, the form group
    loses its login control, and nothing is dispatched. *)
Theorem params_with_account_load (store : StoreState) (login : JsValue)
    (s : AccountStream) (st : State) (a : AccountConfig.t) :
  active s = None ->
  truthy login = true ->
  pickAccount store (js_String login) = Some a ->
  let r := on_params_emission pickAccount store login (s, st) in
  active (fst r) = Some (js_String login) /\
  snd r = snd (account_subscriber a st) /\
  account (this (snd r)) = Some a /\
  controls (this (snd r))
    = patch_controls a (Controls.removeControl_login (controls (this st))) /\
  dispatched (snd r) = dispatched st.
Proof.
  intros A T P. unfold on_params_emission, account_stream_on_params. simpl.
  rewrite T, A, P. simpl. auto.
Qed.

End AccountStreamFacts.

(** ** The progress streams *)

Lemma distinctUntilChanged_after_alternating (values : list bool) (previous : bool) :
  alternating (previous :: distinctUntilChanged_after previous values).
Proof.
  revert previous. induction values as [|v rest IH]; intros previous; simpl; [exact I|].
  destruct (Bool.eqb previous v) eqn:E.
  - apply IH.
  - split.
    + destruct previous, v; simpl in *; congruence.
    + apply IH.
Qed.

Lemma distinctUntilChanged_alternating (values : list bool) :
  alternating (distinctUntilChanged values).
Proof.
  destruct values as [|v rest]; [exact I|].
  apply distinctUntilChanged_after_alternating.
Qed.

Lemma distinctUntilChanged_after_last (values : list bool) (previous v d : bool) :
  last (previous :: distinctUntilChanged_after previous (values ++ [v])) d = v.
Proof.
  revert previous. induction values as [|w rest IH]; intros previous.
  - simpl. destruct (Bool.eqb previous v) eqn:E; [|reflexivity].
    now apply eqb_prop in E.
  - change ((w :: rest) ++ [v])%list with (w :: (rest ++ [v]))%list.
    cbn [distinctUntilChanged_after].
    destruct (Bool.eqb previous w); [apply IH|].
    specialize (IH w).
    destruct (distinctUntilChanged_after w (rest ++ [v])); exact IH.
Qed.

Lemma distinctUntilChanged_last (values : list bool) (v d : bool) :
  last (distinctUntilChanged (values ++ [v])) d = v.
Proof.
  destruct values as [|w rest]; [reflexivity|].
  apply (distinctUntilChanged_after_last rest w v d).
Qed.

Lemma distinctUntilChanged_after_length (values : list bool) (previous : bool) :
  length (distinctUntilChanged_after previous values) <= length values.
Proof.
  revert previous. induction values as [|v rest IH]; intros previous; simpl; [lia|].
  destruct (Bool.eqb previous v); [specialize (IH previous) | specialize (IH v)];
    simpl; lia.
Qed.

(** X14: [processing$] and [removing$] never emit the same value twice in
    a row: each emission after the first is the negation of the one before,
    so a subscriber sees every emission as a change of the flag. *)
Theorem progress_streams_alternate (progress : list Progress.t) :
  alternating (processing_stream progress) /\
  alternating (removing_stream progress).
Proof.
  split; apply distinctUntilChanged_alternating.
Qed.

(** X15: [processing$] and [removing$] are always up to date: after any
    run of progress values the latest emission is the flag of the latest
    progress value, true for [processing$] exactly when addingAccount or
    updatingAccount is truthy; the first emission is the flag of the first
    progress value, and there are never more emissions than progress
    values. *)
Theorem progress_streams_follow (earlier : list Progress.t) (latest : Progress.t)
    (d : bool) :
  last (processing_stream (earlier ++ [latest])) d
    = (truthy (Progress.addingAccount latest)
       || truthy (Progress.updatingAccount latest)) /\
  last (removing_stream (earlier ++ [latest])) d
    = truthy (Progress.removingAccount latest) /\
  hd_error (processing_stream (earlier ++ [latest]))
    = Some (processing_flag (hd latest earlier)) /\
  hd_error (removing_stream (earlier ++ [latest]))
    = Some (removing_flag (hd latest earlier)) /\
  length (processing_stream (earlier ++ [latest])) <= length (earlier ++ [latest]) /\
  length (removing_stream (earlier ++ [latest])) <= length (earlier ++ [latest]).
Proof.
  unfold processing_stream, removing_stream. rewrite !map_app. simpl.
  rewrite !distinctUntilChanged_last.
  split; [|split; [|split; [|split; [|split]]]].
  - unfold processing_flag, Boolean, js_or.
    now destruct (truthy (Progress.addingAccount latest)) eqn:T; rewrite ?T.
  - reflexivity.
  - now destruct earlier.
  - now destruct earlier.
  - rewrite <- (length_map processing_flag (earlier ++ [latest])), map_app. simpl.
    destruct (map processing_flag earlier ++ [processing_flag latest])%list as [|v rest];
      simpl; [lia|].
    pose proof (distinctUntilChanged_after_length rest v). lia.
  - rewrite <- (length_map removing_flag (earlier ++ [latest])), map_app. simpl.
    destruct (map removing_flag earlier ++ [removing_flag latest])%list as [|v rest];
      simpl; [lia|].
    pose proof (distinctUntilChanged_after_length rest v). lia.
Qed.

(** ** The subscriptions of the component *)

Lemma release_last (t : Teardown) : release t [t] = [].
Proof.
  now destruct t.
Qed.

Lemma release_all_self (ts : list Teardown) :
  fold_left (fun r t => release t r) ts ts = [].
Proof.
  induction ts as [|t ts IH]; simpl; [reflexivity|].
  assert (E : Teardown_eqb t t = true) by now destruct t.
  now rewrite E.
Qed.

Lemma ngOnInit_subscriptions_ok (l : Lifecycle) :
  lifecycle_ok l -> lifecycle_ok (ngOnInit_subscriptions l).
Proof.
  destruct l as [[c ts] r]. unfold lifecycle_ok. simpl.
  destruct c; simpl.
  - intros [-> ->]. unfold ngOnInit_subscriptions, register_and_add. simpl. auto.
  - intros ->. unfold ngOnInit_subscriptions, register_and_add. simpl.
    now rewrite <- app_assoc.
Qed.

Lemma ngOnDestroy_ok (l : Lifecycle) :
  lifecycle_ok l -> lifecycle_ok (ngOnDestroy l).
Proof.
  destruct l as [[c ts] r]. unfold lifecycle_ok, ngOnDestroy. simpl.
  destruct c; simpl; [auto|].
  intros ->. split; [apply release_all_self | reflexivity].
Qed.

Lemma lifecycle_invariant (calls : list LifecycleCall) (l : Lifecycle) :
  lifecycle_ok l -> lifecycle_ok (lifecycle_run calls l).
Proof.
  revert l. induction calls as [|[|] rest IH]; intros l H; simpl; [exact H| |].
  - apply IH. now apply ngOnInit_subscriptions_ok.
  - apply IH. now apply ngOnDestroy_ok.
Qed.

Lemma lifecycle_closed_stays (calls : list LifecycleCall) (l : Lifecycle) :
  closed (subscription l) = true ->
  closed (subscription (lifecycle_run calls l)) = true.
Proof.
  revert l. induction calls as [|[|] rest IH]; intros l C; simpl; [exact C| |].
  - apply IH. destruct l as [[c ts] r]. simpl in C. subst c. reflexivity.
  - apply IH. destruct l as [[c ts] r]. simpl in C. subst c. reflexivity.
Qed.

Lemma lifecycle_run_app (xs ys : list LifecycleCall) (l : Lifecycle) :
  lifecycle_run (xs ++ ys) l = lifecycle_run ys (lifecycle_run xs l).
Proof.
  revert l. induction xs as [|[|] xs IH]; intros l; simpl; auto.
Qed.

(** X16: [ngOnDestroy] releases everything: after it, however many times
    [ngOnInit] ran before and whatever is called afterwards, no click
    listener and no account subscription is left in force; a registration
    made by a later [ngOnInit] is released at once. *)
Theorem ngOnDestroy_releases_all (before after : list LifecycleCall) :
  let l := lifecycle_run (before ++ NgOnDestroy :: after) new_lifecycle in
  registered l = [] /\ closed (subscription l) = true.
Proof.
  cbv zeta. rewrite lifecycle_run_app. simpl.
  set (l1 := ngOnDestroy (lifecycle_run before new_lifecycle)).
  assert (C : closed (subscription l1) = true).
  { subst l1. unfold ngOnDestroy.
    destruct (closed (subscription (lifecycle_run before new_lifecycle))) eqn:E;
      [exact E | reflexivity]. }
  assert (I : lifecycle_ok l1).
  { subst l1. apply ngOnDestroy_ok, lifecycle_invariant. reflexivity. }
  pose proof (lifecycle_invariant after l1 I) as H.
  pose proof (lifecycle_closed_stays after l1 C) as C'.
  unfold lifecycle_ok in H. rewrite C' in H.
  split; [apply H | exact C'].
Qed.

(** ** Invariants of the component *)

Section Run.

Variable validateLoginDelaySecondsRange : Validator.

Lemma submit_this (st : State) :
  this (snd (submit validateLoginDelaySecondsRange st)) = this st.
Proof.
  rewrite submit_run.
  now destruct (submit_patch validateLoginDelaySecondsRange (this st)).
Qed.

Lemma remove_this (confirm : string -> bool) (st : State) :
  this (snd (remove confirm st)) = this st.
Proof.
  unfold remove, mbind, get_this, throw, ret, lift, dispatch. simpl.
  destruct (account (this st)) as [a|]; [|reflexivity].
  now destruct (confirm (remove_prompt a)).
Qed.

Lemma setValue_login_presence (name : ControlName.t) (value : JsValue) (c : Controls.t) :
  Controls.form_contains_login (setValue name value c) = Controls.form_contains_login c.
Proof.
  destruct c as [l t d p r e x y w f m u g].
  unfold setValue, Controls.form_contains_login.
  destruct name, l; reflexivity.
Qed.

(** What one event does to the component. *)
Lemma step_account (e : Event) (st : State) :
  account (this (step validateLoginDelaySecondsRange e st)) =
  match e with
  | AccountEmitted a => Some a
  | _ => account (this st)
  end.
Proof.
  destruct e; simpl; [reflexivity | now rewrite submit_this | now rewrite remove_this
                      | reflexivity].
Qed.

Lemma step_login_presence (e : Event) (st : State) :
  Controls.form_contains_login (controls (this (step validateLoginDelaySecondsRange e st))) =
  match e with
  | AccountEmitted _ => false
  | _ => Controls.form_contains_login (controls (this st))
  end.
Proof.
  destruct e; simpl;
    [reflexivity | now rewrite submit_this | now rewrite remove_this
     | apply setValue_login_presence].
Qed.

(** What one event adds to the dispatched actions. *)
Lemma step_dispatched (e : Event) (st : State) :
  exists new,
    dispatched (step validateLoginDelaySecondsRange e st) = (dispatched st ++ new)%list /\
    (new = [] \/
     (exists patch,
        e = SubmitCalled /\ new = [submit_action (this st) patch] /\
        submit_patch validateLoginDelaySecondsRange (this st) = Normal patch) \/
     (exists a,
        e = RemoveCalled true /\ account (this st) = Some a /\
        new = [RemoveAccountRequest a])).
Proof.
  destruct e as [a| |confirmed|name value]; simpl.
  - exists []. rewrite app_nil_r. auto.
  - rewrite submit_run.
    destruct (submit_patch validateLoginDelaySecondsRange (this st)) as [patch|e] eqn:Hp.
    + exists [submit_action (this st) patch]. simpl. split; [reflexivity|].
      right. left. exists patch. auto.
    + exists []. rewrite app_nil_r. auto.
  - unfold remove, mbind, get_this, throw, ret, lift, dispatch. simpl.
    destruct (account (this st)) as [a|] eqn:Ha.
    + destruct confirmed; simpl.
      * exists [RemoveAccountRequest a]. split; [reflexivity|].
        right. right. exists a. auto.
      * exists []. rewrite app_nil_r. auto.
    + exists []. rewrite app_nil_r. auto.
  - exists []. rewrite app_nil_r. auto.
Qed.

Lemma run_app (xs ys : list Event) (st : State) :
  run validateLoginDelaySecondsRange (xs ++ ys) st =
  run validateLoginDelaySecondsRange ys (run validateLoginDelaySecondsRange xs st).
Proof.
  revert st. induction xs as [|x xs IH]; intros st; simpl; auto.
Qed.

Lemma run_login_presence (events : list Event) (st : State) :
  (account (this st) = None <->
   Controls.form_contains_login (controls (this st)) = true) ->
  let st' := run validateLoginDelaySecondsRange events st in
  account (this st') = None <->
  Controls.form_contains_login (controls (this st')) = true.
Proof.
  revert st. induction events as [|e rest IH]; intros st H; simpl; [exact H|].
  apply IH. rewrite step_account, step_login_presence.
  destruct e; try exact H. split; discriminate.
Qed.

(** X17: in every state the component reaches from its construction through
    account emissions, calls of [submit] and [remove] and changes of control
    values, the form group has its login control exactly when no account is
    loaded; so the login entry of the patch always evaluates, and [submit]
    never fails for a missing login control. *)
Theorem login_control_iff_no_account (events : list Event) :
  let st := run validateLoginDelaySecondsRange events initial_state in
  (account (this st) = None <->
   Controls.form_contains_login (controls (this st)) = true) /\
  exists login, submit_login (this st) = Normal login.
Proof.
  cbv zeta.
  assert (H : account (this initial_state) = None <->
              Controls.form_contains_login (controls (this initial_state)) = true)
    by (split; reflexivity).
  apply (run_login_presence events) in H. cbv zeta in H.
  split; [exact H|].
  apply submit_login_normal_iff. intros Ha. apply H in Ha.
  unfold Controls.form_contains_login in Ha.
  destruct (Controls.login (controls (this (run _ events initial_state))));
    [discriminate | discriminate].
Qed.

(** X18: the dispatched actions only grow: after any events the actions
    the store had received are still there, in order, followed by at most
    one action for each call of [submit] or [remove]. *)
Theorem dispatched_only_grows (events : list Event) (st : State) :
  exists new,
    dispatched (run validateLoginDelaySecondsRange events st)
      = (dispatched st ++ new)%list /\
    length new <= method_calls events.
Proof.
  revert st. induction events as [|e rest IH]; intros st; simpl.
  - exists []. rewrite app_nil_r. auto.
  - destruct (IH (step validateLoginDelaySecondsRange e st)) as [new2 [H2 L2]].
    destruct (step_dispatched e st) as [new1 [H1 C]].
    exists (new1 ++ new2)%list. rewrite H2, H1, <- app_assoc. split; [reflexivity|].
    rewrite length_app.
    destruct C as [->|[[patch [-> [-> _]]]|[a [-> [_ ->]]]]]; simpl; try lia.
    destruct e; simpl; lia.
Qed.

(** X19: once an account is loaded it stays loaded, and the component never
    dispatches an AddAccountRequest again: whatever follows, every further
    action is an update or a remove. *)
Theorem loaded_never_adds (events : list Event) (st : State) :
  account (this st) <> None ->
  account (this (run validateLoginDelaySecondsRange events st)) <> None /\
  exists new,
    dispatched (run validateLoginDelaySecondsRange events st)
      = (dispatched st ++ new)%list /\
    Forall (fun act => is_add act = false) new.
Proof.
  revert st. induction events as [|e rest IH]; intros st Ha; simpl.
  - split; [exact Ha|]. exists []. rewrite app_nil_r. auto.
  - assert (Ha1 : account (this (step validateLoginDelaySecondsRange e st)) <> None)
      by (rewrite step_account; destruct e; (exact Ha || discriminate)).
    destruct (IH _ Ha1) as [Hacc [new2 [H2 F2]]].
    split; [exact Hacc|].
    destruct (step_dispatched e st) as [new1 [H1 C]].
    exists (new1 ++ new2)%list. rewrite H2, H1, <- app_assoc. split; [reflexivity|].
    apply Forall_app. split; [|exact F2].
    destruct C as [->|[[patch [_ [-> _]]]|[a [_ [_ ->]]]]].
    + constructor.
    + constructor; [|constructor]. unfold submit_action.
      destruct (account (this st)); [reflexivity | now destruct Ha].
    + constructor; [reflexivity | constructor].
Qed.

(** X20: as long as the account stream has emitted nothing, the component
    stays in create mode and dispatches AddAccountRequest actions only:
    [remove] throws, [submit] adds. *)
Theorem unloaded_only_adds (events : list Event) (st : State) :
  account (this st) = None ->
  emitted_accounts events = [] ->
  account (this (run validateLoginDelaySecondsRange events st)) = None /\
  exists new,
    dispatched (run validateLoginDelaySecondsRange events st)
      = (dispatched st ++ new)%list /\
    Forall (fun act => is_add act = true) new.
Proof.
  revert st. induction events as [|e rest IH]; intros st Ha He; simpl.
  - split; [exact Ha|]. exists []. rewrite app_nil_r. auto.
  - assert (He' : emitted_accounts rest = [] /\ forall a, e <> AccountEmitted a).
    { destruct e; simpl in He; try discriminate; split; auto; discriminate. }
    destruct He' as [He' Hne].
    assert (Ha1 : account (this (step validateLoginDelaySecondsRange e st)) = None).
    { rewrite step_account. destruct e; try exact Ha. now destruct (Hne account0). }
    destruct (IH _ Ha1 He') as [Hacc [new2 [H2 F2]]].
    split; [exact Hacc|].
    destruct (step_dispatched e st) as [new1 [H1 C]].
    exists (new1 ++ new2)%list. rewrite H2, H1, <- app_assoc. split; [reflexivity|].
    apply Forall_app. split; [|exact F2].
    destruct C as [->|[[patch [_ [-> _]]]|[a [_ [Hs _]]]]].
    + constructor.
    + constructor; [|constructor]. unfold submit_action. now rewrite Ha.
    + congruence.
Qed.

Lemma action_from_incl (xs ys : list AccountConfig.t) (act : Action) :
  incl xs ys -> action_from xs act -> action_from ys act.
Proof.
  intros I. destruct act as [p|p|a]; simpl; [auto | | apply I].
  intros [a [Hin Hl]]. exists a. auto.
Qed.

Lemma run_provenance (events : list Event) (st : State) (accounts : list AccountConfig.t) :
  (forall a, account (this st) = Some a -> In a accounts) ->
  Forall (action_from accounts) (dispatched st) ->
  Forall (action_from (accounts ++ emitted_accounts events))
         (dispatched (run validateLoginDelaySecondsRange events st)).
Proof.
  revert st accounts. induction events as [|e rest IH]; intros st accounts Hacc Hd.
  - simpl. rewrite app_nil_r. exact Hd.
  - simpl run.
    assert (E : (accounts ++ emitted_accounts (e :: rest))%list =
                ((accounts ++ emitted_accounts [e]) ++ emitted_accounts rest)%list).
    { rewrite <- app_assoc. f_equal. destruct e; reflexivity. }
    rewrite E. apply IH.
    + intros a. rewrite step_account.
      destruct e as [b| |c|n v]; simpl; rewrite ?app_nil_r; try apply Hacc.
      intros [= ->]. apply in_or_app. right. now left.
    + destruct (step_dispatched e st) as [new [H C]]. rewrite H.
      apply Forall_app. split.
      * eapply Forall_impl; [|exact Hd].
        intros act. apply action_from_incl. now apply incl_appl, incl_refl.
      * destruct C as [->|[[patch [-> [-> Hp]]]|[a [-> [Ha ->]]]]].
        -- constructor.
        -- constructor; [|constructor]. simpl. rewrite app_nil_r.
           unfold submit_action. destruct (account (this st)) as [a|] eqn:Ha;
             simpl; [|exact I].
           exists a. split; [now apply Hacc|].
           apply submit_patch_inv in Hp as [_ [_ [Hl _]]].
           unfold submit_login in Hl. rewrite Ha in Hl. now injection Hl as <-.
        -- constructor; [|constructor]. simpl. rewrite app_nil_r. now apply Hacc.
Qed.

(** X21: every action the component dispatches about an existing account
    names an account the stream has emitted: a RemoveAccountRequest carries
    one of the emitted accounts, and the patch of an UpdateAccountRequest
    has the login of one, whatever the controls were set to. *)
Theorem dispatched_accounts_were_emitted (events : list Event) :
  Forall (action_from (emitted_accounts events))
         (dispatched (run validateLoginDelaySecondsRange events initial_state)).
Proof.
  apply (run_provenance events initial_state []).
  - discriminate.
  - constructor.
Qed.

End Run.

(** ** The further theorems at concrete inputs *)

Lemma submit_repeats_witness :
  exists act,
    this (snd (submit validateLoginDelaySecondsRange_model loaded_state))
      = this loaded_state /\
    dispatched (snd (submit validateLoginDelaySecondsRange_model loaded_state))
      = (dispatched loaded_state ++ [act])%list /\
    submit validateLoginDelaySecondsRange_model
      (snd (submit validateLoginDelaySecondsRange_model loaded_state)) =
    (Normal tt,
     {| this := this loaded_state;
        dispatched := (dispatched loaded_state ++ [act; act])%list |}).
Proof.
  apply (submit_repeats validateLoginDelaySecondsRange_model loaded_state
           (snd (submit validateLoginDelaySecondsRange_model loaded_state))).
  reflexivity.
Defined.

Lemma submit_throw_reasons_witness :
  reversed_range_state = reversed_range_state /\
  ((exists m, Error "Start value is bigger than end value." = TypeError m) \/
   (truthy (Controls.loginDelaySecondsRange (controls (this reversed_range_state))) = true /\
    (validateLoginDelaySecondsRange_model
       (Controls.loginDelaySecondsRange (controls (this reversed_range_state)))
       = Throw (Error "Start value is bigger than end value.") \/
     exists msg,
       validateLoginDelaySecondsRange_model
         (Controls.loginDelaySecondsRange (controls (this reversed_range_state)))
         = Normal (ValidationError msg) /\
       Error "Start value is bigger than end value." = Error msg))).
Proof.
  apply (submit_throw_reasons validateLoginDelaySecondsRange_model
           reversed_range_state reversed_range_state
           (Error "Start value is bigger than end value.")).
  reflexivity.
Defined.

Lemma submit_accepted_range_witness :
  exists act patch,
    dispatched (snd (submit validateLoginDelaySecondsRange_model accepted_range_state))
      = (dispatched accepted_range_state ++ [act])%list /\
    action_patch act = Some patch /\
    Patch.loginDelaySecondsRange patch
      = Some {| AccountConfig.start := 5; AccountConfig.end_ := 10 |}.
Proof.
  apply (submit_accepted_range validateLoginDelaySecondsRange_model accepted_range_state
           (snd (submit validateLoginDelaySecondsRange_model accepted_range_state))
           {| AccountConfig.start := 5; AccountConfig.end_ := 10 |});
    reflexivity.
Defined.

Lemma submit_proxy_fields_trimmed_witness :
  exists act patch,
    dispatched (snd (submit validateLoginDelaySecondsRange_model padded_proxy_state))
      = (dispatched padded_proxy_state ++ [act])%list /\
    action_patch act = Some patch /\
    forall proxy,
      Patch.proxy patch = Some proxy ->
      (exists s,
         (AccountConfig.proxyRules proxy = JStr s \/
          AccountConfig.proxyBypassRules proxy = JStr s) /\
         s <> "") /\
      (forall s,
         AccountConfig.proxyRules proxy = JStr s \/
         AccountConfig.proxyBypassRules proxy = JStr s ->
         (forall c, first_char s = Some c -> is_white_space c = false) /\
         (forall c, last_char s = Some c -> is_white_space c = false)).
Proof.
  apply (submit_proxy_fields_trimmed validateLoginDelaySecondsRange_model
           padded_proxy_state
           (snd (submit validateLoginDelaySecondsRange_model padded_proxy_state))).
  reflexivity.
Defined.

(** The account with a padded proxy rule and the range 30-60, loaded and
    submitted as it is. *)
Lemma load_then_submit_witness :
  exists patch,
    dispatched (snd (submit validateLoginDelaySecondsRange_model
                       (snd (account_subscriber proxied_account initial_state))))
      = [UpdateAccountRequest patch] /\
    Patch.login patch = JStr "proxied@example.org" /\
    Patch.proxy patch = Some {|
      AccountConfig.proxyRules := JStr "socks5://127.0.0.1:9050";
      AccountConfig.proxyBypassRules := JUndefined;
    |} /\
    Patch.loginDelaySecondsRange patch
      = Some {| AccountConfig.start := 30; AccountConfig.end_ := 60 |}.
Proof.
  eexists.
  rewrite (load_then_submit validateLoginDelaySecondsRange_model proxied_account
             initial_state).
  - simpl. repeat split; reflexivity.
  - intros p [= <-]. split; discriminate.
  - intros r [= <-]. reflexivity.
Defined.

Lemma params_without_login_dropped_witness :
  account_stream_on_params pickAccount_model sample_store (JStr "") observing_stream
    = (observing_stream, []) /\
  on_params_emission pickAccount_model sample_store (JStr "") (observing_stream, loaded_state)
    = (observing_stream, loaded_state).
Proof.
  apply (params_without_login_dropped pickAccount_model sample_store (JStr "")
           observing_stream loaded_state).
  reflexivity.
Defined.

Lemma params_while_observing_buffered_witness :
  snd (account_stream_on_params pickAccount_model sample_store (JStr "proxied@example.org")
         observing_stream) = [] /\
  active (fst (account_stream_on_params pickAccount_model sample_store
                 (JStr "proxied@example.org") observing_stream))
    = Some "user@example.org" /\
  buffered (fst (account_stream_on_params pickAccount_model sample_store
                   (JStr "proxied@example.org") observing_stream))
    = ["proxied@example.org"] /\
  snd (on_params_emission pickAccount_model sample_store (JStr "proxied@example.org")
         (observing_stream, loaded_state)) = loaded_state.
Proof.
  apply (params_while_observing_buffered pickAccount_model sample_store
           (JStr "proxied@example.org") observing_stream loaded_state "user@example.org").
  reflexivity.
Defined.


Lemma params_with_account_load_witness :
  account (this (snd (on_params_emission pickAccount_model sample_store
                        (JStr "proxied@example.org")
                        (account_stream_initial, initial_state))))
  = Some proxied_account.
Proof.
  apply (params_with_account_load pickAccount_model sample_store (JStr "proxied@example.org")
           account_stream_initial initial_state proxied_account);
    reflexivity.
Defined.

Lemma loaded_never_adds_witness :
  account (this (run validateLoginDelaySecondsRange_model loaded_session loaded_state))
    <> None /\
  exists new,
    dispatched (run validateLoginDelaySecondsRange_model loaded_session loaded_state)
      = (dispatched loaded_state ++ new)%list /\
    Forall (fun act => is_add act = false) new.
Proof.
  apply (loaded_never_adds validateLoginDelaySecondsRange_model loaded_session
           loaded_state).
  discriminate.
Defined.

Lemma unloaded_only_adds_witness :
  account (this (run validateLoginDelaySecondsRange_model fresh_session initial_state))
    = None /\
  exists new,
    dispatched (run validateLoginDelaySecondsRange_model fresh_session initial_state)
      = (dispatched initial_state ++ new)%list /\
    Forall (fun act => is_add act = true) new.
Proof.
  apply (unloaded_only_adds validateLoginDelaySecondsRange_model fresh_session
           initial_state); reflexivity.
Defined.
